(** * Conference-registration portal: the request handlers and their properties

    A shallow embedding of the Express handlers of the portal backend
    (registration, payment confirmation, admin listing, CSV export and the
    admin paid-flag override), of the fee table and of the identifier
    generator, followed by the properties the specification states about
    them.

    Conventions of the embedding.
    - A JavaScript value that travels through a request body, a record field
      or a JSON response is a [jsval]: [undefined], [null], a boolean, an
      integral number or a string.  Arrays and nested objects do not occur in
      the fields the handlers read.
    - A string is a Rocq [string]; [toLowerCase] folds the letters [A]-[Z],
      which is what the JavaScript method does on ASCII text.
    - The persisted collection (the JSON array in [registrations.json]) is a
      [list registration] in insertion order.  A property whose value is
      [undefined] is dropped by [JSON.stringify] and reads back as
      [undefined], so it is kept as [JUndefined].
    - A handler is a function from the collection and the request to the new
      collection and the reply.  The clock reading ([new Date().toISOString()])
      and the fresh identifier ([nanoid()]) are arguments of the handler. *)

From Stdlib Require Import ZArith NArith Bool List Lia.
From Stdlib Require Import Strings.Ascii Strings.String Numbers.DecimalString.
Import ListNotations.

Local Open Scope list_scope.
Local Open Scope string_scope.

(* ================================================================== *)
(** ** JavaScript values *)

Inductive jsval : Type :=
| JUndefined
| JNull
| JBool (b : bool)
| JNum (n : Z)
| JStr (s : string).

(** [ToBoolean]: what [!v], [v || w], [v && w] and [v ? a : b] test. *)
Definition truthy (v : jsval) : bool :=
  match v with
  | JUndefined | JNull => false
  | JBool b => b
  | JNum n => negb (n =? 0)%Z
  | JStr s => negb (s =? "")
  end.

(** [a || b] *)
Definition js_or (a b : jsval) : jsval := if truthy a then a else b.

(** [ToString], as applied by [+] with a string operand, by template
    literals and by property access. *)
Definition ToString (v : jsval) : string :=
  match v with
  | JUndefined => "undefined"
  | JNull => "null"
  | JBool true => "true"
  | JBool false => "false"
  | JNum n => NilZero.string_of_int (Z.to_int n)
  | JStr s => s
  end.
(* An integer prints as its decimal digits, which is what JavaScript does
   below 10^21 in magnitude. *)

Definition is_upper (c : ascii) : bool :=
  let n := nat_of_ascii c in (65 <=? n)%nat && (n <=? 90)%nat.

Definition lower_char (c : ascii) : ascii :=
  if is_upper c then ascii_of_nat (nat_of_ascii c + 32) else c.

(** [String.prototype.toLowerCase], on text of the 7-bit range: the letters
    [A]-[Z] are folded and every other character is kept. *)
Fixpoint toLowerCase (s : string) : string :=
  match s with
  | EmptyString => EmptyString
  | String c s' => String (lower_char c) (toLowerCase s')
  end.

(** [v.toLowerCase()] on an arbitrary value: a [TypeError] ([None]) unless
    [v] is a string. *)
Definition call_toLowerCase (v : jsval) : option string :=
  match v with
  | JStr s => Some (toLowerCase s)
  | _ => None
  end.

Fixpoint startsWith (s p : string) {struct p} : bool :=
  match p, s with
  | EmptyString, _ => true
  | String _ _, EmptyString => false
  | String d p', String c s' => Ascii.eqb c d && startsWith s' p'
  end.

(** [String.prototype.includes] *)
Fixpoint includes (s sub : string) : bool :=
  startsWith s sub ||
  match s with
  | EmptyString => false
  | String _ s' => includes s' sub
  end.

(** The global [replace] of the CSV export: every double-quote character
    is doubled. *)
Definition dquote : ascii := "034"%char.

Fixpoint escape_quotes (s : string) : string :=
  match s with
  | EmptyString => EmptyString
  | String c s' =>
      if Ascii.eqb c dquote
      then String dquote (String dquote (escape_quotes s'))
      else String c (escape_quotes s')
  end.

(** [Array.prototype.join] on strings. *)
Fixpoint join (sep : string) (l : list string) : string :=
  match l with
  | [] => ""
  | [x] => x
  | x :: rest => x ++ sep ++ join sep rest
  end.

(* ================================================================== *)
(** ** Identifier generator

    [const nanoid = customAlphabet("123456789ABCDEFGHJKLMNPQRSTUVWXYZ", 10)] *)

Definition nanoid_alphabet : string := "123456789ABCDEFGHJKLMNPQRSTUVWXYZ".
Definition nanoid_size : nat := 10.

(** The bit mask of the generator: the smallest [2^k - 1] that covers every
    index of the alphabet,
    [(2 << (31 - Math.clz32((alphabet.length - 1) | 1))) - 1]. *)
Definition alphabet_mask (alphabet : string) : N :=
  (2 * 2 ^ N.log2 (N.lor (N.of_nat (String.length alphabet) - 1) 1) - 1)%N.

(** Modelled from the spec: [customAlphabet] belongs to the nanoid package,
    whose code is not among the sources; only its two arguments are.  The
    generator builds a code of fixed length from the given alphabet out of a
    supply of random bytes: each byte is masked, a masked value that is an
    index of the alphabet appends that character, any other byte is skipped,
    and the code is returned as soon as it has [size] characters.  [None]
    means the supply ran out first (the generator would ask for more). *)
Fixpoint customAlphabet_from (alphabet : string) (size : nat)
         (bytes : list N) (id : string) : option string :=
  match bytes with
  | [] => None
  | b :: rest =>
      let id' :=
        match String.get (N.to_nat (N.land b (alphabet_mask alphabet))) alphabet with
        | Some c => id ++ String c EmptyString
        | None => id
        end in
      if (size <=? String.length id')%nat then Some id'
      else customAlphabet_from alphabet size rest id'
  end.

Definition customAlphabet (alphabet : string) (size : nat)
           (bytes : list N) : option string :=
  customAlphabet_from alphabet size bytes "".

Definition nanoid (bytes : list N) : option string :=
  customAlphabet nanoid_alphabet nanoid_size bytes.

(** The alphabet as the specification words it: the digits 1 to 9 and the
    upper-case letters without I and O. *)
Definition in_restricted_alphabet (c : ascii) : bool :=
  let n := nat_of_ascii c in
  ((49 <=? n)%nat && (n <=? 57)%nat)
  || ((65 <=? n)%nat && (n <=? 90)%nat
      && negb (n =? 73)%nat && negb (n =? 79)%nat).

Fixpoint string_forallb (p : ascii -> bool) (s : string) : bool :=
  match s with
  | EmptyString => true
  | String c s' => p c && string_forallb p s'
  end.

(* ================================================================== *)
(** ** Fee table

    [FEES] is an object literal of four categories, each an object literal
    of three regions, each leaf [{currency, amount}]. *)

Record fee : Type := { fee_currency : string; fee_amount : Z }.

Definition FEES : list (string * list (string * fee)) :=
  [ ("Research Scholars",
      [ ("INDIA", {| fee_currency := "INR"; fee_amount := 1500 |});
        ("ASIA",  {| fee_currency := "USD"; fee_amount := 100 |});
        ("OTHER", {| fee_currency := "USD"; fee_amount := 125 |}) ]);
    ("Academia",
      [ ("INDIA", {| fee_currency := "INR"; fee_amount := 2000 |});
        ("ASIA",  {| fee_currency := "USD"; fee_amount := 150 |});
        ("OTHER", {| fee_currency := "USD"; fee_amount := 175 |}) ]);
    ("Industry Professionals",
      [ ("INDIA", {| fee_currency := "INR"; fee_amount := 2500 |});
        ("ASIA",  {| fee_currency := "USD"; fee_amount := 200 |});
        ("OTHER", {| fee_currency := "USD"; fee_amount := 225 |}) ]);
    ("Listeners / Accompanying",
      [ ("INDIA", {| fee_currency := "INR"; fee_amount := 500 |});
        ("ASIA",  {| fee_currency := "USD"; fee_amount := 30 |});
        ("OTHER", {| fee_currency := "USD"; fee_amount := 40 |}) ]) ].

(** The own property [k] of an object literal. *)
Fixpoint assoc {A : Type} (k : string) (l : list (string * A)) : option A :=
  match l with
  | [] => None
  | (k', v) :: rest => if k =? k' then Some v else assoc k rest
  end.

(** The Fee Table as the specification reads it: the pairs written in the
    literal. *)
Definition fee_table (category region : string) : option fee :=
  match assoc category FEES with
  | Some row => assoc region row
  | None => None
  end.

(** *** Property access on the literal

    [FEES[category]?.[region]] is an ordinary property read: a key that is
    not an own property of the literal is looked up along the prototype
    chain.  The objects such a read can reach are the literals themselves,
    [Object.prototype], [Function.prototype] and built-in functions. *)

Inductive object : Type :=
| Fees
| Row (entries : list (string * fee))
| Leaf (f : fee)
| ObjectPrototype
| FunctionPrototype
| Builtin (fname : string) (arity : Z).

Inductive value : Type :=
| Prim (v : jsval)
| Obj (o : object).

(** The outcome of a property read: a value, or a thrown [TypeError]. *)
Inductive completion : Type :=
| Normal (v : value)
| Throw.

Definition prototype_of (o : object) : option object :=
  match o with
  | Fees | Row _ | Leaf _ | FunctionPrototype => Some ObjectPrototype
  | Builtin _ _ => Some FunctionPrototype
  | ObjectPrototype => None
  end.

(** The function-valued properties of [Object.prototype], with the [length]
    of each. *)
Definition object_prototype_methods : list (string * Z) :=
  [ ("hasOwnProperty", 1); ("isPrototypeOf", 1); ("propertyIsEnumerable", 1);
    ("toLocaleString", 0); ("toString", 0); ("valueOf", 0);
    ("__defineGetter__", 2); ("__defineSetter__", 2);
    ("__lookupGetter__", 1); ("__lookupSetter__", 1) ]%Z.

Definition function_prototype_methods : list (string * Z) :=
  [ ("apply", 2); ("bind", 1); ("call", 1); ("toString", 0) ]%Z.

(** The static methods of the [Object] constructor. *)
Definition object_statics : list (string * Z) :=
  [ ("assign", 2); ("create", 2); ("defineProperties", 2);
    ("defineProperty", 3); ("entries", 1); ("freeze", 1); ("fromEntries", 1);
    ("getOwnPropertyDescriptor", 2); ("getOwnPropertyDescriptors", 1);
    ("getOwnPropertyNames", 1); ("getOwnPropertySymbols", 1);
    ("getPrototypeOf", 1); ("groupBy", 2); ("hasOwn", 2); ("is", 2);
    ("isExtensible", 1); ("isFrozen", 1); ("isSealed", 1); ("keys", 1);
    ("preventExtensions", 1); ("seal", 1); ("setPrototypeOf", 2);
    ("values", 1) ]%Z.

Definition method (k : string) (l : list (string * Z)) : option completion :=
  match assoc k l with
  | Some n => Some (Normal (Obj (Builtin k n)))
  | None => None
  end.

(** The property [k] that object [holder] itself carries, read on behalf of
    [receiver] (the accessor [__proto__] answers for the receiver; the
    accessors [caller] and [arguments] of [Function.prototype] throw). *)
Definition own_property (receiver holder : object) (k : string)
  : option completion :=
  match holder with
  | Fees =>
      match assoc k FEES with
      | Some row => Some (Normal (Obj (Row row)))
      | None => None
      end
  | Row entries =>
      match assoc k entries with
      | Some f => Some (Normal (Obj (Leaf f)))
      | None => None
      end
  | Leaf f =>
      if k =? "currency" then Some (Normal (Prim (JStr (fee_currency f))))
      else if k =? "amount" then Some (Normal (Prim (JNum (fee_amount f))))
      else None
  | ObjectPrototype =>
      if k =? "constructor" then Some (Normal (Obj (Builtin "Object" 1)))
      else if k =? "__proto__" then
        Some (Normal (match prototype_of receiver with
                      | Some p => Obj p
                      | None => Prim JNull
                      end))
      else method k object_prototype_methods
  | FunctionPrototype =>
      if k =? "constructor" then Some (Normal (Obj (Builtin "Function" 1)))
      else if k =? "length" then Some (Normal (Prim (JNum 0)))
      else if k =? "name" then Some (Normal (Prim (JStr "")))
      else if (k =? "caller") || (k =? "arguments") then Some Throw
      else method k function_prototype_methods
  | Builtin fname arity =>
      if k =? "length" then Some (Normal (Prim (JNum arity)))
      else if k =? "name" then Some (Normal (Prim (JStr fname)))
      else if (fname =? "Object") && (k =? "prototype")
           then Some (Normal (Obj ObjectPrototype))
      else if (fname =? "Function") && (k =? "prototype")
           then Some (Normal (Obj FunctionPrototype))
      else if fname =? "Object" then method k object_statics
      else None
  end.

(** The prototype chain of an object, the object first. *)
Definition chain (o : object) : list object :=
  match o with
  | Builtin _ _ => [o; FunctionPrototype; ObjectPrototype]
  | ObjectPrototype => [o]
  | _ => [o; ObjectPrototype]
  end.

Fixpoint lookup (receiver : object) (holders : list object) (k : string)
  : completion :=
  match holders with
  | [] => Normal (Prim JUndefined)
  | h :: rest =>
      match own_property receiver h k with
      | Some c => c
      | None => lookup receiver rest k
      end
  end.

(** [o[k]] *)
Definition Get (o : object) (k : string) : completion := lookup o (chain o) k.

Definition value_truthy (v : value) : bool :=
  match v with
  | Prim p => truthy p
  | Obj _ => true
  end.

(** [FEES[category]?.[region]], the keys converted by [ToString].  A read
    on [FEES] yields an object or [undefined], never another primitive;
    on [undefined] the optional chain stops with [undefined]. *)
Definition FEES_lookup (category region : jsval) : completion :=
  match Get Fees (ToString category) with
  | Throw => Throw
  | Normal (Prim _) => Normal (Prim JUndefined)
  | Normal (Obj o) => Get o (ToString region)
  end.

(** [const { currency, amount } = v]: the two properties of the value the
    lookup produced.  Only a leaf of the table carries them; on every other
    object, and on a primitive, both names are [undefined]. *)
Definition field_of (v : value) (k : string) : jsval :=
  match v with
  | Obj (Leaf f) =>
      match Get (Leaf f) k with
      | Normal (Prim p) => p
      | _ => JUndefined
      end
  | _ => JUndefined
  end.

(* ================================================================== *)
(** ** Registration records and replies *)

Record registration : Type := {
  id : string;
  created_at : string;
  category : jsval;
  region : jsval;
  currency : jsval;
  amount : jsval;
  paper_id : jsval;
  name : jsval;
  organization : jsval;
  email : jsval;
  mobile : jsval;
  paper_filename : jsval;
  paper_original : jsval;
  paid : jsval;
  paid_at : jsval;
  transaction_id : jsval;
  payment_method : jsval;
  payer_email : jsval;
  payment_proof_filename : jsval;
  payment_proof_original : jsval
}.

(** The error taxonomy, and the HTTP status each one is sent with. *)
Inductive failure : Type :=
| MissingField
| InvalidSelection
| EmailMismatch
| Unauthorized
| NotFound
| Internal.

Definition status_code (e : failure) : Z :=
  match e with
  | MissingField | InvalidSelection | EmailMismatch => 400
  | Unauthorized => 401
  | NotFound => 404
  | Internal => 500
  end.

Inductive reply (A : Type) : Type :=
| Ok (body : A)
| Err (e : failure).
Arguments Ok {A} body.
Arguments Err {A} e.

(** A file accepted by multer ([req.file]). *)
Record upload : Type := { filename : string; originalname : string }.

(** [rows.find((r) => r.id === id)] *)
Definition find_by_id (key : string) (rows : list registration)
  : option registration :=
  find (fun r => id r =? key) rows.

(** The handlers mutate the object [find] returned, which is the element of
    [rows] itself: the first record with the id changes in place. *)
Fixpoint mutate_first (key : string) (f : registration -> registration)
         (rows : list registration) : list registration :=
  match rows with
  | [] => []
  | r :: rest =>
      if id r =? key then f r :: rest else r :: mutate_first key f rest
  end.

Definition uploads_url (v : jsval) : jsval := JStr ("/uploads/" ++ ToString v).

(* ------------------------------------------------------------------ *)
(** ** POST /api/register *)

Record register_request : Type := {
  body_category : jsval;
  body_region : jsval;
  body_paperId : jsval;
  body_name : jsval;
  body_organization : jsval;
  body_email : jsval;
  body_mobile : jsval;
  req_file : option upload
}.

Record register_reply : Type := {
  reply_id : string;
  reply_currency : jsval;
  reply_amount : jsval;
  reply_file : jsval
}.

Definition new_record (req : register_request) (fresh now : string)
           (cur amt : jsval) : registration :=
  {| id := fresh;
     created_at := now;
     category := body_category req;
     region := body_region req;
     currency := cur;
     amount := amt;
     paper_id := js_or (body_paperId req) JNull;
     name := body_name req;
     organization := js_or (body_organization req) JNull;
     email := body_email req;
     mobile := body_mobile req;
     paper_filename :=
       match req_file req with
       | Some f => js_or (JStr (filename f)) JNull
       | None => JNull
       end;
     paper_original :=
       match req_file req with
       | Some f => js_or (JStr (originalname f)) JNull
       | None => JNull
       end;
     paid := JNum 0;
     paid_at := JNull;
     transaction_id := JNull;
     payment_method := JNull;
     payer_email := JNull;
     payment_proof_filename := JNull;
     payment_proof_original := JNull |}.

(** [fresh] is the value of [nanoid()], [now] the clock reading.  A thrown
    error is caught by the handler and answered with status 500. *)
Definition register (rows : list registration) (req : register_request)
           (fresh now : string) : list registration * reply register_reply :=
  if negb (truthy (body_category req)) || negb (truthy (body_region req))
     || negb (truthy (body_name req)) || negb (truthy (body_email req))
     || negb (truthy (body_mobile req))
  then (rows, Err MissingField)
  else
    match FEES_lookup (body_category req) (body_region req) with
    | Throw => (rows, Err Internal)
    | Normal v =>
        if negb (value_truthy v) then (rows, Err InvalidSelection)
        else
          let currency := field_of v "currency" in
          let amount := field_of v "amount" in
          ((rows ++ [new_record req fresh now currency amount])%list,
           Ok {| reply_id := fresh;
                 reply_currency := currency;
                 reply_amount := amount;
                 reply_file :=
                   match req_file req with
                   | Some f => uploads_url (JStr (filename f))
                   | None => JNull
                   end |})
    end.

(* ------------------------------------------------------------------ *)
(** ** POST /api/confirm-payment/:id (with a proof file) *)

Definition set_payment (now : string) (transactionId method payer : jsval)
           (proof : upload) (r : registration) : registration :=
  {| id := id r;
     created_at := created_at r;
     category := category r;
     region := region r;
     currency := currency r;
     amount := amount r;
     paper_id := paper_id r;
     name := name r;
     organization := organization r;
     email := email r;
     mobile := mobile r;
     paper_filename := paper_filename r;
     paper_original := paper_original r;
     paid := JNum 1;
     paid_at := JStr now;
     transaction_id := transactionId;
     payment_method := method;
     payer_email := payer;
     payment_proof_filename := JStr (filename proof);
     payment_proof_original := JStr (originalname proof) |}.

(** [rec.email && rec.email.toLowerCase() !== email.toLowerCase()]:
    [Some true] when the emails differ, [None] when a [toLowerCase] call
    throws. *)
Definition email_differs (stored supplied : jsval) : option bool :=
  if truthy stored then
    match call_toLowerCase stored, call_toLowerCase supplied with
    | Some a, Some b => Some (negb (a =? b))
    | _, _ => None
    end
  else Some false.

(** The reply body is [{ok: true, id}]. *)
Definition confirmPayment (rows : list registration) (key : string)
           (transactionId method payer : jsval) (file : option upload)
           (now : string) : list registration * reply string :=
  match file with
  | None => (rows, Err MissingField)
  | Some proof =>
      match find_by_id key rows with
      | None => (rows, Err NotFound)
      | Some rec =>
          match email_differs (email rec) payer with
          | None => (rows, Err Internal)
          | Some true => (rows, Err EmailMismatch)
          | Some false =>
              (mutate_first key
                 (set_payment now transactionId method payer proof) rows,
               Ok key)
          end
      end
  end.

(* ------------------------------------------------------------------ *)
(** ** Admin authentication *)

(** [process.env]: the one variable the handlers below depend on. *)
Record environment : Type := { env_ADMIN_PASSWORD : option string }.

Definition of_optional (o : option string) : jsval :=
  match o with
  | Some s => JStr s
  | None => JUndefined
  end.

(** [process.env.ADMIN_PASSWORD || "VishalRajput2003"] *)
Definition ADMIN_PASSWORD (env : environment) : string :=
  ToString (js_or (of_optional (env_ADMIN_PASSWORD env))
                  (JStr "VishalRajput2003")).

(** The two places a caller can put the secret: [req.query.password] and
    the header [x-admin-password]. *)
Record admin_request : Type := {
  query_password : option string;
  header_password : option string
}.

(** [req.query.password || req.headers["x-admin-password"] || ""], then
    [toString()]. *)
Definition supplied_secret (req : admin_request) : string :=
  ToString (js_or (js_or (of_optional (query_password req))
                         (of_optional (header_password req)))
                  (JStr "")).

Definition checkAdminPassword (env : environment) (req : admin_request)
  : bool :=
  supplied_secret req =? ADMIN_PASSWORD env.

(* ------------------------------------------------------------------ *)
(** ** GET /api/admin/registrations *)

(** [{...r, paper_url, payment_proof_url}] *)
Record listed : Type := {
  row : registration;
  paper_url : jsval;
  payment_proof_url : jsval
}.

Definition with_urls (r : registration) : listed :=
  {| row := r;
     paper_url :=
       if truthy (paper_filename r) then uploads_url (paper_filename r)
       else JNull;
     payment_proof_url :=
       if truthy (payment_proof_filename r)
       then uploads_url (payment_proof_filename r)
       else JNull |}.

(** [(r.id + r.name + r.paper_id)]: [r.id] is a string, so both [+] are
    string concatenations and the other two operands go through
    [ToString]. *)
Definition search_text (r : registration) : string :=
  id r ++ ToString (name r) ++ ToString (paper_id r).

(** [q] is [req.query.q]. *)
Definition adminRegistrations (env : environment) (req : admin_request)
           (q : option string) (rows : list registration)
  : reply (list listed) :=
  if negb (checkAdminPassword env req) then Err Unauthorized
  else
    let q := toLowerCase (ToString (js_or (of_optional q) (JStr ""))) in
    let rows := rev rows in
    let rows :=
      if truthy (JStr q)
      then filter (fun r => includes (toLowerCase (search_text r)) q) rows
      else rows in
    Ok (map with_urls rows).

(* ------------------------------------------------------------------ *)
(** ** GET /api/admin/export *)

Definition export_headers : list string :=
  [ "id"; "created_at"; "category"; "region"; "currency"; "amount";
    "paper_id"; "name"; "organization"; "email"; "mobile";
    "paper_filename"; "paper_original"; "paid"; "paid_at";
    "transaction_id"; "payment_method"; "payer_email";
    "payment_proof_filename"; "payment_proof_original" ].

(** [r[h]] for a column name [h]. *)
Definition column (r : registration) (h : string) : jsval :=
  if h =? "id" then JStr (id r)
  else if h =? "created_at" then JStr (created_at r)
  else if h =? "category" then category r
  else if h =? "region" then region r
  else if h =? "currency" then currency r
  else if h =? "amount" then amount r
  else if h =? "paper_id" then paper_id r
  else if h =? "name" then name r
  else if h =? "organization" then organization r
  else if h =? "email" then email r
  else if h =? "mobile" then mobile r
  else if h =? "paper_filename" then paper_filename r
  else if h =? "paper_original" then paper_original r
  else if h =? "paid" then paid r
  else if h =? "paid_at" then paid_at r
  else if h =? "transaction_id" then transaction_id r
  else if h =? "payment_method" then payment_method r
  else if h =? "payer_email" then payer_email r
  else if h =? "payment_proof_filename" then payment_proof_filename r
  else if h =? "payment_proof_original" then payment_proof_original r
  else JUndefined.

(** [v ?? w] *)
Definition nullish_or (v w : jsval) : jsval :=
  match v with
  | JUndefined | JNull => w
  | _ => v
  end.

Definition newline : string := String "010"%char EmptyString.
Definition quoted (s : string) : string :=
  String dquote (escape_quotes s ++ String dquote EmptyString).

Definition csv_line (r : registration) : string :=
  join "," (map (fun h => quoted (ToString (nullish_or (column r h) (JStr ""))))
                export_headers)
  ++ newline.

(** The reply is the sequence of chunks written to the response. *)
Definition adminExport (env : environment) (req : admin_request)
           (rows : list registration) : reply (list string) :=
  if negb (checkAdminPassword env req) then Err Unauthorized
  else Ok ((join "," export_headers ++ newline) :: map csv_line (rev rows)).

(* ------------------------------------------------------------------ *)
(** ** POST /api/admin/mark-paid/:id *)

(** [rec.paid = paid ? 1 : 0; rec.paid_at = paid ? now : null] *)
Definition set_paid (flag : jsval) (now : string) (r : registration)
  : registration :=
  {| id := id r;
     created_at := created_at r;
     category := category r;
     region := region r;
     currency := currency r;
     amount := amount r;
     paper_id := paper_id r;
     name := name r;
     organization := organization r;
     email := email r;
     mobile := mobile r;
     paper_filename := paper_filename r;
     paper_original := paper_original r;
     paid := if truthy flag then JNum 1 else JNum 0;
     paid_at := if truthy flag then JStr now else JNull;
     transaction_id := transaction_id r;
     payment_method := payment_method r;
     payer_email := payer_email r;
     payment_proof_filename := payment_proof_filename r;
     payment_proof_original := payment_proof_original r |}.

(** [flag] is [req.body.paid]; the reply body is
    [{ok: true, registration: rec}]. *)
Definition markPaid (env : environment) (req : admin_request)
           (rows : list registration) (key : string) (flag : jsval)
           (now : string) : list registration * reply registration :=
  if negb (checkAdminPassword env req) then (rows, Err Unauthorized)
  else
    match find_by_id key rows with
    | None => (rows, Err NotFound)
    | Some rec =>
        (mutate_first key (set_paid flag now) rows,
         Ok (set_paid flag now rec))
    end.

(* ------------------------------------------------------------------ *)
(** ** The JSON variant of payment confirmation (server/server.js)

    The second route set confirms a payment from a JSON body, without a
    proof file, and requires all three body fields.  It has no [try]: an
    error thrown by the handler reaches the framework, which answers with
    status 500. *)

Module ServerJs.

Record confirm_reply : Type := {
  reply_paid_at : jsval;
  reply_transactionId : jsval;
  reply_method : jsval;
  reply_email : jsval
}.

(** [rows.findIndex(r => r.id === key)], [None] for [-1]. *)
Fixpoint findIndex (key : string) (rows : list registration) : option nat :=
  match rows with
  | [] => None
  | r :: rest =>
      if id r =? key then Some 0%nat
      else option_map S (findIndex key rest)
  end.

(** An assignment through [rows[idx]]. *)
Fixpoint update_at (idx : nat) (f : registration -> registration)
         (rows : list registration) : list registration :=
  match rows, idx with
  | [], _ => []
  | r :: rest, O => f r :: rest
  | r :: rest, S i => r :: update_at i f rest
  end.

Definition set_payment (now : string) (transactionId method payer : jsval)
           (r : registration) : registration :=
  {| id := id r;
     created_at := created_at r;
     category := category r;
     region := region r;
     currency := currency r;
     amount := amount r;
     paper_id := paper_id r;
     name := name r;
     organization := organization r;
     email := email r;
     mobile := mobile r;
     paper_filename := paper_filename r;
     paper_original := paper_original r;
     paid := JNum 1;
     paid_at := JStr now;
     transaction_id := transactionId;
     payment_method := method;
     payer_email := payer;
     payment_proof_filename := payment_proof_filename r;
     payment_proof_original := payment_proof_original r |}.

Definition confirmPayment (rows : list registration) (key : string)
           (transactionId method payer : jsval) (now : string)
  : list registration * reply confirm_reply :=
  if negb (truthy transactionId) || negb (truthy method)
     || negb (truthy payer)
  then (rows, Err MissingField)
  else
    match findIndex key rows with
    | None => (rows, Err NotFound)
    | Some idx =>
        match nth_error rows idx with
        | None => (rows, Err Internal)
        | Some rec =>
            match call_toLowerCase (email rec), call_toLowerCase payer with
            | Some a, Some b =>
                if negb (a =? b) then (rows, Err EmailMismatch)
                else
                  (update_at idx (set_payment now transactionId method payer)
                             rows,
                   Ok {| reply_paid_at := JStr now;
                         reply_transactionId := transactionId;
                         reply_method := method;
                         reply_email := payer |})
            | _, _ => (rows, Err Internal)
            end
        end
    end.

(** [GET /api/registrations/:id]: the record as persisted, or 404. *)
Definition getRegistration (rows : list registration) (key : string)
  : reply registration :=
  match find_by_id key rows with
  | Some r => Ok r
  | None => Err NotFound
  end.

(** [POST /api/register] of this route set: the same checks and reply; the
    record it builds has no payment-proof properties, which therefore read
    as [undefined]. *)
Definition new_record (req : register_request) (fresh now : string)
           (cur amt : jsval) : registration :=
  {| id := fresh;
     created_at := now;
     category := body_category req;
     region := body_region req;
     currency := cur;
     amount := amt;
     paper_id := js_or (body_paperId req) JNull;
     name := body_name req;
     organization := js_or (body_organization req) JNull;
     email := body_email req;
     mobile := body_mobile req;
     paper_filename :=
       match req_file req with
       | Some f => js_or (JStr (filename f)) JNull
       | None => JNull
       end;
     paper_original :=
       match req_file req with
       | Some f => js_or (JStr (originalname f)) JNull
       | None => JNull
       end;
     paid := JNum 0;
     paid_at := JNull;
     transaction_id := JNull;
     payment_method := JNull;
     payer_email := JNull;
     payment_proof_filename := JUndefined;
     payment_proof_original := JUndefined |}.

Definition register (rows : list registration) (req : register_request)
           (fresh now : string) : list registration * reply register_reply :=
  if negb (truthy (body_category req)) || negb (truthy (body_region req))
     || negb (truthy (body_name req)) || negb (truthy (body_email req))
     || negb (truthy (body_mobile req))
  then (rows, Err MissingField)
  else
    match FEES_lookup (body_category req) (body_region req) with
    | Throw => (rows, Err Internal)
    | Normal v =>
        if negb (value_truthy v) then (rows, Err InvalidSelection)
        else
          let currency := field_of v "currency" in
          let amount := field_of v "amount" in
          ((rows ++ [new_record req fresh now currency amount])%list,
           Ok {| reply_id := fresh;
                 reply_currency := currency;
                 reply_amount := amount;
                 reply_file :=
                   match req_file req with
                   | Some f => uploads_url (JStr (filename f))
                   | None => JNull
                   end |})
    end.

(** [POST /api/create-payment/:id]: the mock payment link of a record,
    [{url, amount, currency}], or 404. *)
Record payment_link : Type := {
  link_url : string;
  link_amount : jsval;
  link_currency : jsval
}.

Definition createPayment (rows : list registration) (key : string)
  : reply payment_link :=
  match find_by_id key rows with
  | None => Err NotFound
  | Some reg =>
      Ok {| link_url := "/mock-pay/" ++ id reg;
            link_amount := amount reg;
            link_currency := currency reg |}
  end.

End ServerJs.

(* ------------------------------------------------------------------ *)
(** ** Collections the documented operations produce

    The data file starts as the empty array; [register], [confirmPayment]
    and [markPaid] are the operations that write it. *)

Inductive step (now : string)
  : list registration -> list registration -> Prop :=
| step_register rows req fresh :
    step now rows (fst (register rows req fresh now))
| step_confirmPayment rows key transactionId method payer file :
    step now rows
         (fst (confirmPayment rows key transactionId method payer file now))
| step_markPaid env req rows key flag :
    step now rows (fst (markPaid env req rows key flag now)).

Inductive reachable : list registration -> Prop :=
| reachable_empty : reachable []
| reachable_step now rows rows' :
    reachable rows -> step now rows rows' -> reachable rows'.

(** The same, under a clock that never runs backwards: [run t rows] when
    [rows] is produced by operations whose clock readings do not decrease,
    [t] being the latest one.  Timestamps are ISO-8601 strings, which
    JavaScript compares as [<=?] does. *)
Inductive run : string -> list registration -> Prop :=
| run_empty t : run t []
| run_step t now rows rows' :
    run t rows -> (t <=? now) = true -> step now rows rows' ->
    run now rows'.

(* ================================================================== *)
(** ** Notions the specification uses *)

(** Two characters that are the same up to letter case. *)
Definition same_letter (c d : ascii) : Prop :=
  c = d
  \/ (is_upper c = true /\ d = lower_char c)
  \/ (is_upper d = true /\ c = lower_char d).

(** Two strings that are equal up to letter case: the same length, and the
    same letter at each position. *)
Fixpoint equal_up_to_case (a b : string) : Prop :=
  match a, b with
  | EmptyString, EmptyString => True
  | String c a', String d b' => same_letter c d /\ equal_up_to_case a' b'
  | _, _ => False
  end.

(** [s] contains [q] case-insensitively: some substring of [s] equals [q]
    up to letter case. *)
Definition contains_ignoring_case (s q : string) : Prop :=
  exists pre mid post,
    s = pre ++ mid ++ post /\ equal_up_to_case mid q.

(** [kept] consists of exactly the elements of [l] that satisfy [P], in the
    order of [l]. *)
Inductive selects {A : Type} (P : A -> Prop) : list A -> list A -> Prop :=
| selects_nil : selects P [] []
| selects_keep x l kept :
    P x -> selects P l kept -> selects P (x :: l) (x :: kept)
| selects_drop x l kept :
    ~ P x -> selects P l kept -> selects P (x :: l) kept.



(** The invariant of the data model: an unpaid record carries no payment
    data.  A record is unpaid when its flag reads false; the handlers store
    the flag as the number 0 or 1. *)
Definition unpaid (r : registration) : Prop := truthy (paid r) = false.

Definition unpaid_fields_clear (r : registration) : Prop :=
  unpaid r ->
  paid_at r = JNull /\ transaction_id r = JNull
  /\ payment_method r = JNull /\ payer_email r = JNull.

(** Its part about the payment time alone. *)
Definition unpaid_has_no_paid_at (r : registration) : Prop :=
  unpaid r -> paid_at r = JNull.

(** The number of bytes of a random supply that select a character of the
    alphabet. *)
Definition usable (alphabet : string) (b : N) : bool :=
  (N.to_nat (N.land b (alphabet_mask alphabet)) <? String.length alphabet)%nat.

(** [r'] differs from [r] at most in the paid flag and the payment time. *)
Definition same_except_paid (r r' : registration) : Prop :=
  id r' = id r /\ created_at r' = created_at r
  /\ category r' = category r /\ region r' = region r
  /\ currency r' = currency r /\ amount r' = amount r
  /\ paper_id r' = paper_id r /\ name r' = name r
  /\ organization r' = organization r /\ email r' = email r
  /\ mobile r' = mobile r
  /\ paper_filename r' = paper_filename r
  /\ paper_original r' = paper_original r
  /\ transaction_id r' = transaction_id r
  /\ payment_method r' = payment_method r
  /\ payer_email r' = payer_email r
  /\ payment_proof_filename r' = payment_proof_filename r
  /\ payment_proof_original r' = payment_proof_original r.

(** [rows'] is [rows] with the first record of id [key], [r], replaced by
    [r']; every other position is untouched. *)
Definition replaces_first (key : string) (r r' : registration)
           (rows rows' : list registration) : Prop :=
  exists before after,
    rows = (before ++ r :: after)%list
    /\ rows' = (before ++ r' :: after)%list
    /\ find_by_id key before = None.

(** Under a clock that does not run backwards: the record was created no
    later than [t], and was paid, if at all, no earlier than created. *)
Definition timely (t : string) (r : registration) : Prop :=
  (created_at r <=? t) = true
  /\ (paid_at r = JNull
      \/ exists p, paid_at r = JStr p /\ (created_at r <=? p) = true).

(* ================================================================== *)
(** ** A session, used to exercise the handlers *)

Definition ada_request : register_request :=
  {| body_category := JStr "Academia"; body_region := JStr "ASIA";
     body_paperId := JUndefined; body_name := JStr "Ada";
     body_organization := JUndefined; body_email := JStr "ada@example.org";
     body_mobile := JStr "5550100"; req_file := None |}.

Definition receipt : upload :=
  {| filename := "R9S8T7U6V5.png"; originalname := "receipt.png" |}.

Definition default_env : environment := {| env_ADMIN_PASSWORD := None |}.

Definition admin : admin_request :=
  {| query_password := Some "VishalRajput2003"; header_password := None |}.

Definition rows_registered : list registration :=
  fst (register [] ada_request "A1B2C3D4E5" "2025-01-01T00:00:00.000Z").

Definition rows_confirmed : list registration :=
  fst (confirmPayment rows_registered "A1B2C3D4E5" (JStr "TX-1")
         (JStr "UPI") (JStr "Ada@Example.org") (Some receipt)
         "2025-01-02T00:00:00.000Z").

Definition rows_overridden : list registration :=
  fst (markPaid default_env admin rows_confirmed "A1B2C3D4E5" (JBool false)
         "2025-01-03T00:00:00.000Z").

(** A stored record whose email field is empty. *)
Definition row_without_email : registration :=
  {| id := "Z9Y8X7W6V5"; created_at := "2024-12-31T00:00:00.000Z";
     category := JStr "Academia"; region := JStr "INDIA";
     currency := JStr "INR"; amount := JNum 2000;
     paper_id := JNull; name := JStr "Bea"; organization := JNull;
     email := JStr ""; mobile := JStr "5550102";
     paper_filename := JNull; paper_original := JNull;
     paid := JNum 0; paid_at := JNull;
     transaction_id := JNull; payment_method := JNull; payer_email := JNull;
     payment_proof_filename := JNull; payment_proof_original := JNull |}.

(** A stored record whose email field is null. *)
Definition row_with_null_email : registration :=
  {| id := "Z9Y8X7W6V5"; created_at := "2024-12-31T00:00:00.000Z";
     category := JStr "Academia"; region := JStr "INDIA";
     currency := JStr "INR"; amount := JNum 2000;
     paper_id := JNull; name := JStr "Bea"; organization := JNull;
     email := JNull; mobile := JStr "5550102";
     paper_filename := JNull; paper_original := JNull;
     paid := JNum 0; paid_at := JNull;
     transaction_id := JNull; payment_method := JNull; payer_email := JNull;
     payment_proof_filename := JNull; payment_proof_original := JNull |}.

(* ================================================================== *)
(** ** Upload filters

    The [fileFilter] callbacks of the two multer instances.  The argument
    is [file.mimetype]; the result is [Some true] when the file is let
    through, [Some false] when it is refused with an error, and [None] when
    evaluating the test throws. *)

(** [mimetype?.toLowerCase().includes(word)]: an optional chain, so a
    missing mimetype gives [undefined] (which is falsy) without calling
    anything. *)
Definition mimetype_includes (mimetype : jsval) (word : string)
  : option bool :=
  match mimetype with
  | JUndefined | JNull => Some false
  | JStr s => Some (includes (toLowerCase s) word)
  | _ => None
  end.

(** The filter of [upload] (the paper of a registration). *)
Definition upload_fileFilter (mimetype : jsval) : option bool :=
  match mimetype_includes mimetype "pdf" with
  | Some found => Some found
  | None => None
  end.

(** The filter of [paymentUpload] (the payment proof): the second test is
    evaluated only when the first one found nothing. *)
Definition paymentUpload_fileFilter (mimetype : jsval) : option bool :=
  match mimetype_includes mimetype "image" with
  | Some true => Some true
  | Some false =>
      match mimetype_includes mimetype "pdf" with
      | Some found => Some found
      | None => None
      end
  | None => None
  end.

(* ================================================================== *)
(** ** Further notions used by the properties below *)

(** Any number of operations, one after the other. *)
Inductive steps : list registration -> list registration -> Prop :=
| steps_none rows : steps rows rows
| steps_more now rows rows' rows'' :
    steps rows rows' -> step now rows' rows'' -> steps rows rows''.

(** [r'] is [r] as far as the registration itself goes: everything but the
    payment state. *)
Definition same_core (r r' : registration) : Prop :=
  id r' = id r /\ created_at r' = created_at r
  /\ category r' = category r /\ region r' = region r
  /\ currency r' = currency r /\ amount r' = amount r
  /\ paper_id r' = paper_id r /\ name r' = name r
  /\ organization r' = organization r /\ email r' = email r
  /\ mobile r' = mobile r
  /\ paper_filename r' = paper_filename r
  /\ paper_original r' = paper_original r.





(** The names [Object.prototype] answers to. *)
Definition object_prototype_names : list string :=
  "constructor" :: "__proto__" :: map fst object_prototype_methods.

(** *** A reader of exported lines

    The usual reading of a comma-separated line whose cells are quoted: a
    cell runs from its opening double quote to the first double quote that
    is not followed by another one, and a doubled double quote inside it
    stands for one. *)

(** The text of a cell and what follows its closing quote; the argument
    starts after the opening quote. *)
Fixpoint read_cell (s : string) : option (string * string) :=
  match s with
  | EmptyString => None
  | String c s' =>
      if Ascii.eqb c dquote then
        match s' with
        | String d s'' =>
            if Ascii.eqb d dquote then
              match read_cell s'' with
              | Some (text, rest) => Some (String dquote text, rest)
              | None => None
              end
            else Some (EmptyString, s')
        | EmptyString => Some (EmptyString, EmptyString)
        end
      else
        match read_cell s' with
        | Some (text, rest) => Some (String c text, rest)
        | None => None
        end
  end.

(** The cells of a line of at most [columns] cells that ends in a line
    feed. *)
Fixpoint read_line (columns : nat) (s : string) : option (list string) :=
  match columns, s with
  | S n, String q s1 =>
      if Ascii.eqb q dquote then
        match read_cell s1 with
        | Some (text, String sep rest) =>
            if Ascii.eqb sep ","%char then
              match read_line n rest with
              | Some cells => Some (text :: cells)
              | None => None
              end
            else if Ascii.eqb sep "010"%char then
              match rest with
              | EmptyString => Some [text]
              | _ => None
              end
            else None
        | _ => None
        end
      else None
  | _, _ => None
  end.

(** The text the export writes for a column of a record. *)
Definition cell_text (r : registration) (h : string) : string :=
  ToString (nullish_or (column r h) (JStr "")).

(* ================================================================== *)
(** ** Query parameters that are not a single string

    A query parameter that occurs once is a string; one that is repeated
    reaches the handler as an array of strings.  The handlers above take
    the parameter as an optional string; the two definitions below embed
    the same code for a parameter that may also be repeated. *)

Inductive query_value : Type :=
| QueryAbsent
| QueryString (s : string)
| QueryArray (items : list string).

Definition query_of (o : option string) : query_value :=
  match o with
  | Some s => QueryString s
  | None => QueryAbsent
  end.

(** [checkAdminPassword] with [req.query.password] of any of the three
    shapes.  An array is truthy, so [||] keeps it, and its [toString()]
    joins the items with commas. *)
Definition checkAdminPassword_query (env : environment)
           (password : query_value) (header : option string) : bool :=
  match password with
  | QueryArray items => join "," items =? ADMIN_PASSWORD env
  | QueryString s =>
      ToString (js_or (js_or (JStr s) (of_optional header)) (JStr ""))
      =? ADMIN_PASSWORD env
  | QueryAbsent =>
      ToString (js_or (js_or JUndefined (of_optional header)) (JStr ""))
      =? ADMIN_PASSWORD env
  end.





(* ================================================================== *)
(** * Properties *)

(** ** Strings *)

Lemma length_app (a b : string) :
  String.length (a ++ b) = (String.length a + String.length b)%nat.
Proof. induction a as [|c a IH]; simpl; [reflexivity | now rewrite IH]. Qed.

Lemma string_forallb_app (p : ascii -> bool) (a b : string) :
  string_forallb p (a ++ b) = string_forallb p a && string_forallb p b.
Proof.
  induction a as [|c a IH]; simpl; [reflexivity |].
  now rewrite IH, andb_assoc.
Qed.

Lemma get_in_range (s : string) :
  forall i, (i < String.length s)%nat -> exists c, String.get i s = Some c.
Proof.
  induction s as [|c s IH]; simpl; intros i Hi; [lia |].
  destruct i as [|i]; [now exists c |].
  apply IH; lia.
Qed.

Lemma get_some_in_range (s : string) :
  forall i c, String.get i s = Some c -> (i < String.length s)%nat.
Proof.
  induction s as [|d s IH]; simpl; intros i c H; [discriminate |].
  destruct i as [|i]; [lia |].
  apply IH in H; lia.
Qed.

Lemma get_forallb (p : ascii -> bool) (s : string) :
  string_forallb p s = true ->
  forall i c, String.get i s = Some c -> p c = true.
Proof.
  induction s as [|d s IH]; simpl; intros Hp i c H; [discriminate |].
  apply andb_prop in Hp as [Hd Hs].
  destruct i as [|i].
  - inversion H; subst; exact Hd.
  - exact (IH Hs i c H).
Qed.

(** ** Identifier generator *)

Section Generator.

Variable alphabet : string.
Variable size : nat.

(** One byte of the supply appends at most one character, and only a
    character of the alphabet. *)
Lemma customAlphabet_from_sound (p : ascii -> bool) :
  string_forallb p alphabet = true ->
  forall bytes id out,
    (String.length id < size)%nat ->
    string_forallb p id = true ->
    customAlphabet_from alphabet size bytes id = Some out ->
    String.length out = size /\ string_forallb p out = true.
Proof.
  intros Halpha bytes.
  induction bytes as [|b rest IH]; simpl; intros id out Hlen Hid Hrun;
    [discriminate |].
  destruct (String.get _ alphabet) as [c|] eqn:Hget.
  - assert (Hc : p c = true) by exact (get_forallb p alphabet Halpha _ c Hget).
    assert (Hid' : string_forallb p (id ++ String c "") = true)
      by (rewrite string_forallb_app, Hid; simpl; now rewrite Hc).
    assert (Hlen' : String.length (id ++ String c "") = S (String.length id))
      by (rewrite length_app; simpl; lia).
    destruct (size <=? String.length (id ++ String c ""))%nat eqn:Hfull.
    + inversion Hrun; subst out. apply Nat.leb_le in Hfull. split; [lia | exact Hid'].
    + apply Nat.leb_gt in Hfull. eapply IH; eauto.
  - destruct (size <=? String.length id)%nat eqn:Hfull.
    + apply Nat.leb_le in Hfull; lia.
    + eapply IH; eauto.
Qed.

(** Enough usable bytes in the supply make the generator return. *)
Lemma customAlphabet_from_returns :
  forall bytes id,
    (String.length id < size)%nat ->
    (size - String.length id
     <= List.length (filter (usable alphabet) bytes))%nat ->
    exists out, customAlphabet_from alphabet size bytes id = Some out.
Proof.
  induction bytes as [|b rest IH]; simpl; intros id Hlen Hcount; [lia |].
  unfold usable at 1 in Hcount.
  destruct (String.get _ alphabet) as [c|] eqn:Hget.
  - apply get_some_in_range in Hget as Hlt.
    apply Nat.ltb_lt in Hlt. rewrite Hlt in Hcount. simpl in Hcount.
    destruct (size <=? String.length (id ++ String c ""))%nat eqn:Hfull;
      [eauto |].
    apply Nat.leb_gt in Hfull.
    apply IH; [exact Hfull |].
    rewrite length_app in *; simpl in *; lia.
  - destruct (N.to_nat _ <? String.length alphabet)%nat eqn:Hlt.
    + apply Nat.ltb_lt, get_in_range in Hlt as [c Hc]. congruence.
    + destruct (size <=? String.length id)%nat eqn:Hfull;
        [apply Nat.leb_le in Hfull; lia |].
      apply IH; assumption.
Qed.

End Generator.

Lemma nanoid_alphabet_restricted :
  string_forallb in_restricted_alphabet nanoid_alphabet = true.
Proof. reflexivity. Qed.

Lemma restricted_in_nanoid_alphabet (c : ascii) :
  in_restricted_alphabet c = true ->
  exists i, String.get i nanoid_alphabet = Some c.
Proof.
  intros H.
  exists (match String.index 0 (String c "") nanoid_alphabet with
          | Some i => i
          | None => 0%nat
          end).
  destruct c as [[] [] [] [] [] [] [] []];
    first [discriminate H | reflexivity].
Qed.

(** C9. Every identifier the generator returns is exactly 10 characters
    long and consists of characters of the 33-character alphabet, which is
    the digits 1 to 9 and the upper-case letters without I and O; the
    generator does return once the random supply holds 10 usable bytes. *)
Theorem nanoid_length_and_alphabet :
  String.length nanoid_alphabet = 33%nat
  /\ (forall c, in_restricted_alphabet c = true
                <-> exists i, String.get i nanoid_alphabet = Some c)
  /\ forall bytes,
       ((10 <= List.length (filter (usable nanoid_alphabet) bytes))%nat ->
        exists id, nanoid bytes = Some id)
       /\ (forall id, nanoid bytes = Some id ->
             String.length id = 10%nat
             /\ string_forallb in_restricted_alphabet id = true).
Proof.
  split; [reflexivity |]. split.
  - intros c; split; [apply restricted_in_nanoid_alphabet |].
    intros [i Hi].
    exact (get_forallb _ _ nanoid_alphabet_restricted i c Hi).
  - intros bytes; split.
    + intros Hcount.
      apply customAlphabet_from_returns;
        [unfold nanoid_size; simpl; lia | exact Hcount].
    + intros id Hid.
      apply (customAlphabet_from_sound nanoid_alphabet nanoid_size
               in_restricted_alphabet nanoid_alphabet_restricted bytes "" id);
        [simpl; unfold nanoid_size; lia | reflexivity | exact Hid].
Qed.

Lemma nanoid_length_and_alphabet_witness :
  nanoid [0; 1; 63; 40; 2; 3; 4; 5; 6; 7; 32; 9; 10]%N = Some "12345678ZA"
  /\ String.length "12345678ZA" = 10%nat
  /\ string_forallb in_restricted_alphabet "12345678ZA" = true.
Proof.
  split; [reflexivity |].
  apply (proj2 (proj2 (proj2 nanoid_length_and_alphabet)
                  [0; 1; 63; 40; 2; 3; 4; 5; 6; 7; 32; 9; 10]%N)).
  reflexivity.
Defined.

(** ** Registration *)

(** A pair written in the table is found by the property read, own
    properties shadowing inherited ones. *)
Lemma FEES_lookup_table (c r : string) (f : fee) :
  fee_table c r = Some f ->
  FEES_lookup (JStr c) (JStr r) = Normal (Obj (Leaf f)).
Proof.
  unfold fee_table, FEES_lookup, Get.
  cbn [ToString chain lookup own_property].
  destruct (assoc c FEES) as [entries|] eqn:Hc; [|discriminate].
  intros Hr. cbn [chain lookup own_property]. now rewrite Hr.
Qed.

Lemma field_of_leaf (f : fee) :
  field_of (Obj (Leaf f)) "currency" = JStr (fee_currency f)
  /\ field_of (Obj (Leaf f)) "amount" = JNum (fee_amount f).
Proof. split; reflexivity. Qed.

Lemma fee_table_keys_nonempty (c r : string) (f : fee) :
  fee_table c r = Some f -> c <> "" /\ r <> "".
Proof.
  intros H; split; intros ->; [cbv in H; discriminate H |].
  unfold fee_table in H.
  destruct (assoc c FEES) as [entries|] eqn:Hc; [|discriminate].
  simpl in Hc.
  repeat match type of Hc with
         | (if ?b then _ else _) = _ => destruct b
         end;
    inversion Hc; subst entries; discriminate H.
Qed.

Lemma truthy_string (s : string) : s <> "" -> truthy (JStr s) = true.
Proof.
  intros H; simpl. destruct (s =? "") eqn:E; [|reflexivity].
  apply String.eqb_eq in E; contradiction.
Qed.

(** A request with one of the five required fields missing or empty is
    answered with status 400 and nothing is written. *)
Lemma register_missing_field rows req fresh now :
  truthy (body_category req) = false \/ truthy (body_region req) = false
  \/ truthy (body_name req) = false \/ truthy (body_email req) = false
  \/ truthy (body_mobile req) = false ->
  register rows req fresh now = (rows, Err MissingField).
Proof.
  unfold register.
  intros [H | [H | [H | [H | H]]]]; rewrite H; simpl;
    rewrite ?orb_true_r; reflexivity.
Qed.

(** A category that is no property of the table at all is refused with
    status 400 and nothing is written. *)
Example register_unknown_category rows fresh now :
  register rows
    {| body_category := JStr "Students"; body_region := JStr "ASIA";
       body_paperId := JUndefined; body_name := JStr "Cy";
       body_organization := JUndefined; body_email := JStr "cy@example.org";
       body_mobile := JStr "5550103"; req_file := None |} fresh now
  = (rows, Err InvalidSelection)
  /\ status_code InvalidSelection = 400%Z.
Proof. split; reflexivity. Qed.

(** C2. For every pair of the Fee Table, a registration whose required
    fields are all non-empty is answered with exactly the currency and the
    amount the table stores for the pair; for Academia and ASIA these are
    USD and 150. *)
Theorem register_returns_table_fee :
  forall rows req fresh now c r f,
    body_category req = JStr c ->
    body_region req = JStr r ->
    fee_table c r = Some f ->
    truthy (body_name req) = true ->
    truthy (body_email req) = true ->
    truthy (body_mobile req) = true ->
    exists body,
      snd (register rows req fresh now) = Ok body
      /\ reply_id body = fresh
      /\ reply_currency body = JStr (fee_currency f)
      /\ reply_amount body = JNum (fee_amount f)
      /\ (c = "Academia" -> r = "ASIA" ->
          reply_currency body = JStr "USD" /\ reply_amount body = JNum 150).
Proof.
  intros rows req fresh now c r f Hc Hr Hf Hn He Hm.
  destruct (fee_table_keys_nonempty c r f Hf) as [Hc0 Hr0].
  unfold register.
  rewrite Hc, Hr, Hn, He, Hm, (truthy_string c Hc0), (truthy_string r Hr0).
  simpl orb. cbv iota.
  rewrite (FEES_lookup_table c r f Hf).
  simpl value_truthy. cbv iota. simpl snd.
  eexists; split; [reflexivity |]. simpl.
  repeat (split; [reflexivity |]).
  intros -> ->. inversion Hf. split; reflexivity.
Qed.

Lemma register_returns_table_fee_witness :
  exists body,
    snd (register []
           {| body_category := JStr "Academia"; body_region := JStr "ASIA";
              body_paperId := JUndefined; body_name := JStr "Ada";
              body_organization := JUndefined;
              body_email := JStr "ada@example.org";
              body_mobile := JStr "5550100"; req_file := None |}
           "A1B2C3D4E5" "2025-01-01T00:00:00.000Z") = Ok body
    /\ reply_currency body = JStr "USD" /\ reply_amount body = JNum 150.
Proof.
  destruct (register_returns_table_fee []
              {| body_category := JStr "Academia"; body_region := JStr "ASIA";
                 body_paperId := JUndefined; body_name := JStr "Ada";
                 body_organization := JUndefined;
                 body_email := JStr "ada@example.org";
                 body_mobile := JStr "5550100"; req_file := None |}
              "A1B2C3D4E5" "2025-01-01T00:00:00.000Z" "Academia" "ASIA"
              {| fee_currency := "USD"; fee_amount := 150 |}
              eq_refl eq_refl eq_refl eq_refl eq_refl eq_refl)
    as [body [Hok [_ [_ [_ Hfee]]]]].
  exists body. split; [exact Hok | exact (Hfee eq_refl eq_refl)].
Defined.

(** C3, at the request it fails on.  The pair (constructor, name) is not
    in the Fee Table, yet [FEES["constructor"]] is the inherited [Object]
    function and its [name] is a non-empty string, so the guard lets the
    request through: a record without currency and amount is appended and
    the reply is a success. *)
Theorem register_accepts_inherited_key :
  let req :=
    {| body_category := JStr "constructor"; body_region := JStr "name";
       body_paperId := JUndefined; body_name := JStr "Bob";
       body_organization := JUndefined; body_email := JStr "bob@example.org";
       body_mobile := JStr "5550101"; req_file := None |} in
  fee_table "constructor" "name" = None
  /\ FEES_lookup (JStr "constructor") (JStr "name")
     = Normal (Prim (JStr "Object"))
  /\ register [] req "A1B2C3D4E5" "2025-01-01T00:00:00.000Z"
     = ([new_record req "A1B2C3D4E5" "2025-01-01T00:00:00.000Z"
           JUndefined JUndefined],
        Ok {| reply_id := "A1B2C3D4E5"; reply_currency := JUndefined;
              reply_amount := JUndefined; reply_file := JNull |}).
Proof. repeat split. Qed.

(** ** The collection *)

Lemma find_by_id_id key rows r : find_by_id key rows = Some r -> id r = key.
Proof.
  unfold find_by_id; intros H. apply find_some in H as [_ H].
  now apply String.eqb_eq.
Qed.

Lemma mutate_first_absent key f rows :
  find_by_id key rows = None -> mutate_first key f rows = rows.
Proof.
  unfold find_by_id.
  induction rows as [|r rest IH]; simpl; [reflexivity |].
  destruct (id r =? key); [discriminate |].
  intros H; now rewrite IH.
Qed.

Lemma mutate_first_replaces key f rows r :
  find_by_id key rows = Some r ->
  replaces_first key r (f r) rows (mutate_first key f rows).
Proof.
  unfold replaces_first, find_by_id.
  induction rows as [|x rest IH]; simpl; [discriminate |].
  destruct (id x =? key) eqn:E.
  - intros H; inversion H; subst x. now exists [], rest.
  - intros H. destruct (IH H) as (before & after & H1 & H2 & H3).
    exists (x :: before), after. simpl. rewrite E, H1 at 1.
    repeat split; [now rewrite H2 | exact H3].
Qed.

Lemma find_mutate_first key f rows r :
  (forall x, id (f x) = id x) ->
  find_by_id key rows = Some r ->
  find_by_id key (mutate_first key f rows) = Some (f r).
Proof.
  unfold find_by_id; intros Hid.
  induction rows as [|x rest IH]; simpl; [discriminate |].
  destruct (id x =? key) eqn:E; simpl.
  - intros H; inversion H; subst x. now rewrite Hid, E.
  - rewrite E. exact IH.
Qed.

Lemma Forall_mutate_first (P : registration -> Prop) key f rows :
  (forall r, P r -> P (f r)) ->
  Forall P rows -> Forall P (mutate_first key f rows).
Proof.
  intros Hf H. induction H as [|x rest Hx Hrest IH]; simpl; [constructor |].
  destruct (id x =? key); constructor; auto.
Qed.

(** A successful confirmation has found the record and rewritten it in
    place. *)
Lemma confirmPayment_ok rows key tx m payer file now rows' k :
  confirmPayment rows key tx m payer file now = (rows', Ok k) ->
  exists proof rec,
    file = Some proof /\ find_by_id key rows = Some rec
    /\ email_differs (email rec) payer = Some false
    /\ rows' = mutate_first key (set_payment now tx m payer proof) rows
    /\ k = key.
Proof.
  unfold confirmPayment.
  destruct file as [proof|]; [|discriminate].
  destruct (find_by_id key rows) as [rec|] eqn:Hfind; [|discriminate].
  destruct (email_differs (email rec) payer) as [[|]|] eqn:Hmail;
    try discriminate.
  intros H; inversion H; subst. now exists proof, rec.
Qed.

(** ** Admin override of the paid flag *)

Lemma markPaid_found env req rows key flag now rec :
  checkAdminPassword env req = true ->
  find_by_id key rows = Some rec ->
  markPaid env req rows key flag now
  = (mutate_first key (set_paid flag now) rows, Ok (set_paid flag now rec)).
Proof. unfold markPaid; intros -> ->; reflexivity. Qed.

Lemma set_paid_same_except_paid flag now r :
  same_except_paid r (set_paid flag now r).
Proof. unfold same_except_paid; simpl; repeat split. Qed.

(** C4. With the admin secret accepted and a record of the id present,
    markPaid(id, false) clears the paid flag (stored as 0) and sets paid_at
    to null, markPaid(id, true) sets the flag (stored as 1) and paid_at to
    the current time; either way the reply is the rewritten record, every
    other field of it and every other record are as before, so that after a
    successful confirmPayment the transaction id, method, payer email and
    proof file names survive markPaid(id, false).  On an absent id markPaid
    fails with NotFound and the collection is unchanged. *)
Theorem markPaid_frame :
  forall env req rows key now,
    checkAdminPassword env req = true ->
    (forall rec, find_by_id key rows = Some rec ->
       (exists r' rows',
          markPaid env req rows key (JBool false) now = (rows', Ok r')
          /\ replaces_first key rec r' rows rows'
          /\ find_by_id key rows' = Some r'
          /\ paid r' = JNum 0 /\ unpaid r' /\ paid_at r' = JNull
          /\ same_except_paid rec r')
       /\ (exists r' rows',
          markPaid env req rows key (JBool true) now = (rows', Ok r')
          /\ replaces_first key rec r' rows rows'
          /\ find_by_id key rows' = Some r'
          /\ paid r' = JNum 1 /\ ~ unpaid r' /\ paid_at r' = JStr now
          /\ same_except_paid rec r'))
    /\ (forall tx m payer proof now0 rows1,
          confirmPayment rows key tx m payer (Some proof) now0
          = (rows1, Ok key) ->
          exists r' rows',
            markPaid env req rows1 key (JBool false) now = (rows', Ok r')
            /\ find_by_id key rows' = Some r'
            /\ paid r' = JNum 0 /\ unpaid r' /\ paid_at r' = JNull
            /\ transaction_id r' = tx /\ payment_method r' = m
            /\ payer_email r' = payer
            /\ payment_proof_filename r' = JStr (filename proof)
            /\ payment_proof_original r' = JStr (originalname proof))
    /\ (forall flag, find_by_id key rows = None ->
          markPaid env req rows key flag now = (rows, Err NotFound)).
Proof.
  intros env req rows key now Hauth. split; [|split].
  - intros rec Hfind; split.
    + exists (set_paid (JBool false) now rec),
             (mutate_first key (set_paid (JBool false) now) rows).
      split; [now apply markPaid_found |].
      split; [now apply mutate_first_replaces |].
      split; [now apply find_mutate_first |].
      repeat split.
    + exists (set_paid (JBool true) now rec),
             (mutate_first key (set_paid (JBool true) now) rows).
      split; [now apply markPaid_found |].
      split; [now apply mutate_first_replaces |].
      split; [now apply find_mutate_first |].
      split; [reflexivity |]. split; [discriminate |].
      split; [reflexivity | apply set_paid_same_except_paid].
  - intros tx m payer proof now0 rows1 Hconfirm.
    apply confirmPayment_ok in Hconfirm
      as (proof' & rec & Hp & Hfind & _ & Hrows1 & _).
    inversion Hp; subst proof'.
    assert (Hfind1 : find_by_id key rows1
                     = Some (set_payment now0 tx m payer proof rec))
      by (subst rows1; now apply find_mutate_first).
    exists (set_paid (JBool false) now
              (set_payment now0 tx m payer proof rec)),
           (mutate_first key (set_paid (JBool false) now) rows1).
    split; [now apply markPaid_found |].
    split; [now apply find_mutate_first |].
    repeat split.
  - intros flag Hfind. unfold markPaid. now rewrite Hauth, Hfind.
Qed.

Lemma markPaid_frame_witness :
  exists r' rows',
    markPaid default_env admin rows_confirmed "A1B2C3D4E5" (JBool false)
             "2025-01-03T00:00:00.000Z" = (rows', Ok r')
    /\ paid r' = JNum 0 /\ paid_at r' = JNull
    /\ transaction_id r' = JStr "TX-1".
Proof.
  destruct (markPaid_frame default_env admin rows_registered "A1B2C3D4E5"
              "2025-01-03T00:00:00.000Z" eq_refl) as [_ [H _]].
  destruct (H (JStr "TX-1") (JStr "UPI") (JStr "Ada@Example.org") receipt
              "2025-01-02T00:00:00.000Z" rows_confirmed eq_refl)
    as (r' & rows' & H1 & _ & H2 & _ & H3 & H4 & _).
  exists r', rows'. repeat split; assumption.
Defined.

(** ** The paid flag and the payment fields *)

Lemma set_payment_id now tx m payer proof x :
  id (set_payment now tx m payer proof x) = id x.
Proof. reflexivity. Qed.

Lemma set_paid_id flag now x : id (set_paid flag now x) = id x.
Proof. reflexivity. Qed.

Lemma new_record_unpaid req fresh now cur amt :
  unpaid_fields_clear (new_record req fresh now cur amt).
Proof. intros _; repeat split. Qed.

Lemma register_preserves (P : registration -> Prop) rows req fresh now :
  (forall cur amt, P (new_record req fresh now cur amt)) ->
  Forall P rows -> Forall P (fst (register rows req fresh now)).
Proof.
  intros Hnew H. unfold register.
  destruct (_ || _); [exact H |].
  destruct (FEES_lookup _ _) as [v|]; [|exact H].
  destruct (negb (value_truthy v)); [exact H |].
  simpl. apply Forall_app; split; [exact H |].
  constructor; [apply Hnew | constructor].
Qed.

Lemma confirmPayment_preserves (P : registration -> Prop)
      rows key tx m payer file now :
  (forall proof r, P r -> P (set_payment now tx m payer proof r)) ->
  Forall P rows ->
  Forall P (fst (confirmPayment rows key tx m payer file now)).
Proof.
  intros Hset H. unfold confirmPayment.
  destruct file as [proof|]; [|exact H].
  destruct (find_by_id key rows) as [rec|]; [|exact H].
  destruct (email_differs (email rec) payer) as [[|]|]; try exact H.
  simpl. apply Forall_mutate_first; auto.
Qed.

Lemma markPaid_preserves (P : registration -> Prop)
      env req rows key flag now :
  (forall r, P r -> P (set_paid flag now r)) ->
  Forall P rows -> Forall P (fst (markPaid env req rows key flag now)).
Proof.
  intros Hset H. unfold markPaid.
  destruct (negb (checkAdminPassword env req)); [exact H |].
  destruct (find_by_id key rows) as [rec|]; [|exact H].
  simpl. apply Forall_mutate_first; auto.
Qed.

Lemma step_preserves_paid_at now rows rows' :
  step now rows rows' ->
  Forall unpaid_has_no_paid_at rows -> Forall unpaid_has_no_paid_at rows'.
Proof.
  intros [rows0 req fresh | rows0 key tx m payer file
          | env req rows0 key flag] H.
  - apply register_preserves; [|exact H]. intros cur amt _. reflexivity.
  - apply confirmPayment_preserves; [|exact H].
    intros proof r _ Hpaid. discriminate Hpaid.
  - apply markPaid_preserves; [|exact H].
    intros r _. unfold unpaid_has_no_paid_at, unpaid; simpl.
    destruct (truthy flag); [discriminate | reflexivity].
Qed.

(** C1, as the code has it.  In every collection the operations produce,
    an unpaid record (flag 0) has a null paid_at, and each of register,
    confirmPayment and markPaid preserves this.  The further fields
    transaction_id, payment_method and payer_email are null on unpaid
    records as long as only register and confirmPayment write the
    collection. *)
Theorem unpaid_invariant :
  (forall now rows rows',
      step now rows rows' ->
      Forall unpaid_has_no_paid_at rows ->
      Forall unpaid_has_no_paid_at rows')
  /\ (forall rows, reachable rows -> Forall unpaid_has_no_paid_at rows)
  /\ (forall rows req fresh now,
        Forall unpaid_fields_clear rows ->
        Forall unpaid_fields_clear (fst (register rows req fresh now)))
  /\ (forall rows key tx m payer file now,
        Forall unpaid_fields_clear rows ->
        Forall unpaid_fields_clear
               (fst (confirmPayment rows key tx m payer file now))).
Proof.
  split; [exact step_preserves_paid_at |]. split; [|split].
  - intros rows H. induction H as [|now rows rows' _ IH Hstep];
      [constructor | eapply step_preserves_paid_at; eauto].
  - intros rows req fresh now H.
    apply register_preserves; [|exact H].
    intros cur amt. apply new_record_unpaid.
  - intros rows key tx m payer file now H.
    apply confirmPayment_preserves; [|exact H].
    intros proof r _ Hpaid. discriminate Hpaid.
Qed.

Lemma rows_overridden_reachable : reachable rows_overridden.
Proof.
  eapply reachable_step; [| apply step_markPaid].
  eapply reachable_step; [| apply step_confirmPayment].
  eapply reachable_step; [| apply step_register].
  apply reachable_empty.
Qed.

Lemma unpaid_invariant_witness :
  reachable rows_overridden /\ Forall unpaid_has_no_paid_at rows_overridden.
Proof.
  split; [exact rows_overridden_reachable |].
  apply (proj1 (proj2 unpaid_invariant) rows_overridden).
  exact rows_overridden_reachable.
Defined.

(** C1, as stated, fails: registering, confirming the payment and then
    calling markPaid(id, false) leaves a record that is unpaid and still
    carries its transaction id, payment method and payer email. *)
Lemma unpaid_fields_survive_markPaid :
  reachable rows_overridden
  /\ ~ Forall unpaid_fields_clear rows_overridden
  /\ exists r, rows_overridden = [r]
               /\ paid r = JNum 0 /\ unpaid r /\ paid_at r = JNull
               /\ transaction_id r = JStr "TX-1"
               /\ payment_method r = JStr "UPI"
               /\ payer_email r = JStr "Ada@Example.org".
Proof.
  split; [exact rows_overridden_reachable |]. split.
  - intros H. vm_compute in H. inversion H as [|r l Hr _]; subst.
    destruct (Hr eq_refl) as [_ [Htx _]]. discriminate Htx.
  - eexists; split; [vm_compute; reflexivity |]. repeat split.
Qed.

(** ** Timestamps *)

Lemma leb_refl (a : string) : (a <=? a) = true.
Proof.
  unfold String.leb.
  pose proof (String.compare_antisym a a) as H.
  destruct (a ?= a); simpl in H; try reflexivity; discriminate H.
Qed.

Lemma leb_trans (a b c : string) :
  (a <=? b) = true -> (b <=? c) = true -> (a <=? c) = true.
Proof.
  unfold String.leb. revert b c.
  induction a as [|x a IH]; intros [|y b] [|z c]; simpl; try easy.
  unfold Ascii.compare.
  destruct (N.compare_spec (N_of_ascii x) (N_of_ascii y)),
           (N.compare_spec (N_of_ascii y) (N_of_ascii z)),
           (N.compare_spec (N_of_ascii x) (N_of_ascii z));
    try easy; try lia.
  apply IH.
Qed.

Lemma timely_later t now r :
  (t <=? now) = true -> timely t r -> timely now r.
Proof.
  intros Hle [Hc Hp]. split; [eapply leb_trans; eauto | exact Hp].
Qed.

Lemma step_timely t now rows rows' :
  (t <=? now) = true -> step now rows rows' ->
  Forall (timely t) rows -> Forall (timely now) rows'.
Proof.
  intros Hle Hstep H.
  assert (H' : Forall (timely now) rows)
    by (eapply Forall_impl; [|exact H]; intros r; now apply timely_later).
  clear H.
  destruct Hstep as [rows0 req fresh | rows0 key tx m payer file
                     | env req rows0 key flag].
  - apply register_preserves; [|exact H'].
    intros cur amt. split; [apply leb_refl | now left].
  - apply confirmPayment_preserves; [|exact H'].
    intros proof r [Hc _]. split; [exact Hc |].
    right. exists now. split; [reflexivity | exact Hc].
  - apply markPaid_preserves; [|exact H'].
    intros r [Hc _]. split; [exact Hc |]. simpl.
    destruct (truthy flag); [|now left].
    right. exists now. split; [reflexivity | exact Hc].
Qed.

Lemma run_timely t rows : run t rows -> Forall (timely t) rows.
Proof.
  induction 1 as [t | t now rows rows' _ IH Hle Hstep];
    [constructor | eapply step_timely; eauto].
Qed.

(** ** Registration followed by confirmation *)

Lemma register_ok rows req fresh now rows' body :
  register rows req fresh now = (rows', Ok body) ->
  exists cur amt,
    rows' = (rows ++ [new_record req fresh now cur amt])%list
    /\ reply_id body = fresh.
Proof.
  unfold register.
  destruct (_ || _); [discriminate |].
  destruct (FEES_lookup _ _) as [v|]; [|discriminate].
  destruct (negb (value_truthy v)); [discriminate |].
  intros H; inversion H; subst. now eexists _, _.
Qed.

(** C6, as the code has it.  The record register appends has the paid flag
    0 (a number) and a null paid_at; after a successful confirmPayment the
    record read back by its id has the paid flag 1 (a number) and paid_at
    equal to the clock reading of the confirmation, which is not before
    the record's created_at when the clock has not run backwards. *)
Theorem paid_flag_after_register_and_confirm :
  (forall rows req fresh now rows' body,
      register rows req fresh now = (rows', Ok body) ->
      exists r,
        rows' = (rows ++ [r])%list /\ id r = reply_id body
        /\ paid r = JNum 0 /\ paid_at r = JNull /\ created_at r = now)
  /\ (forall t rows now key tx m payer file rows' k,
        run t rows ->
        (t <=? now) = true ->
        confirmPayment rows key tx m payer file now = (rows', Ok k) ->
        exists r',
          find_by_id key rows' = Some r'
          /\ paid r' = JNum 1
          /\ paid_at r' = JStr now
          /\ (created_at r' <=? now) = true).
Proof.
  split.
  - intros rows req fresh now rows' body H.
    apply register_ok in H as (cur & amt & -> & Hid).
    eexists; split; [reflexivity |]. now repeat split.
  - intros t rows now key tx m payer file rows' k Hrun Hle H.
    apply confirmPayment_ok in H as (proof & rec & _ & Hfind & _ & -> & _).
    exists (set_payment now tx m payer proof rec).
    split; [now apply find_mutate_first |]. repeat split.
    simpl. apply run_timely in Hrun.
    unfold find_by_id in Hfind. apply find_some in Hfind as [Hin _].
    rewrite Forall_forall in Hrun. destruct (Hrun rec Hin) as [Hc _].
    eapply leb_trans; eauto.
Qed.

Lemma rows_registered_run : run "2025-01-01T00:00:00.000Z" rows_registered.
Proof.
  eapply run_step;
    [apply (run_empty "2025-01-01T00:00:00.000Z") | reflexivity
     | apply step_register].
Qed.

Lemma paid_flag_after_register_and_confirm_witness :
  exists r',
    find_by_id "A1B2C3D4E5" rows_confirmed = Some r'
    /\ paid r' = JNum 1
    /\ paid_at r' = JStr "2025-01-02T00:00:00.000Z"
    /\ (created_at r' <=? "2025-01-02T00:00:00.000Z") = true.
Proof.
  apply (proj2 paid_flag_after_register_and_confirm
           "2025-01-01T00:00:00.000Z" rows_registered
           "2025-01-02T00:00:00.000Z" "A1B2C3D4E5" (JStr "TX-1") (JStr "UPI")
           (JStr "Ada@Example.org") (Some receipt) rows_confirmed
           "A1B2C3D4E5" rows_registered_run eq_refl eq_refl).
Defined.

(** C6, as stated, fails: the flag of a fresh record is the number 0, not
    the boolean false, and after a successful confirmation it is the number
    1, not the boolean true. *)
Lemma paid_flag_is_a_number :
  (exists body r,
      register [] ada_request "A1B2C3D4E5" "2025-01-01T00:00:00.000Z"
      = ([r], Ok body)
      /\ paid r = JNum 0 /\ paid r <> JBool false)
  /\ (exists r',
        confirmPayment rows_registered "A1B2C3D4E5" (JStr "TX-1")
          (JStr "UPI") (JStr "Ada@Example.org") (Some receipt)
          "2025-01-02T00:00:00.000Z" = ([r'], Ok "A1B2C3D4E5")
        /\ find_by_id "A1B2C3D4E5" [r'] = Some r'
        /\ paid r' = JNum 1 /\ paid r' <> JBool true).
Proof.
  split.
  - eexists _, _. split; [vm_compute; reflexivity |].
    split; [reflexivity | discriminate].
  - eexists. split; [vm_compute; reflexivity |].
    split; [reflexivity |]. split; [reflexivity | discriminate].
Qed.

(** ** Letter case *)

Lemma is_upper_code (c : ascii) :
  is_upper c = true <-> (65 <= nat_of_ascii c <= 90)%nat.
Proof.
  unfold is_upper. rewrite andb_true_iff, !Nat.leb_le. tauto.
Qed.

Lemma lower_char_code (c : ascii) :
  is_upper c = true ->
  nat_of_ascii (lower_char c) = (nat_of_ascii c + 32)%nat.
Proof.
  intros H. unfold lower_char. rewrite H.
  apply is_upper_code in H. apply nat_ascii_embedding. lia.
Qed.

Lemma lower_char_not_upper (c : ascii) : is_upper (lower_char c) = false.
Proof.
  destruct (is_upper c) eqn:H.
  - apply not_true_is_false. intros H'.
    apply is_upper_code in H'. rewrite (lower_char_code c H) in H'.
    apply is_upper_code in H. lia.
  - unfold lower_char. now rewrite H.
Qed.

Lemma lower_char_idempotent (c : ascii) :
  lower_char (lower_char c) = lower_char c.
Proof.
  unfold lower_char at 1. now rewrite lower_char_not_upper.
Qed.

Lemma lower_char_same_letter (c d : ascii) :
  lower_char c = lower_char d <-> same_letter c d.
Proof.
  split.
  - intros H. unfold same_letter.
    destruct (is_upper c) eqn:Hc, (is_upper d) eqn:Hd.
    + left.
      apply (f_equal nat_of_ascii) in H.
      rewrite (lower_char_code c Hc), (lower_char_code d Hd) in H.
      rewrite <- (ascii_nat_embedding c), <- (ascii_nat_embedding d).
      f_equal; lia.
    + right; left. split; [reflexivity |].
      rewrite H. unfold lower_char. now rewrite Hd.
    + right; right. split; [reflexivity |].
      rewrite <- H. unfold lower_char. now rewrite Hc.
    + left. unfold lower_char in H. now rewrite Hc, Hd in H.
  - intros [-> | [[_ ->] | [_ ->]]];
      now rewrite ?lower_char_idempotent.
Qed.

(** [toLowerCase] decides equality up to letter case. *)
Lemma toLowerCase_equal_up_to_case (a b : string) :
  toLowerCase a = toLowerCase b <-> equal_up_to_case a b.
Proof.
  revert b. induction a as [|c a IH]; intros [|d b]; simpl;
    try (split; [discriminate | tauto]); [tauto |].
  rewrite <- IH, <- lower_char_same_letter.
  split; [intros H; inversion H; auto | intros [-> ->]; reflexivity].
Qed.


(** ** Payment confirmation *)

Lemma confirmPayment_found rows key tx m payer proof now rec :
  find_by_id key rows = Some rec ->
  email_differs (email rec) payer = Some false ->
  confirmPayment rows key tx m payer (Some proof) now
  = (mutate_first key (set_payment now tx m payer proof) rows, Ok key).
Proof. unfold confirmPayment; intros -> ->; reflexivity. Qed.

Lemma findIndex_found key rows rec :
  find_by_id key rows = Some rec ->
  exists idx,
    ServerJs.findIndex key rows = Some idx
    /\ nth_error rows idx = Some rec
    /\ forall f, ServerJs.update_at idx f rows = mutate_first key f rows.
Proof.
  unfold find_by_id.
  induction rows as [|x rest IH]; simpl; [discriminate |].
  destruct (id x =? key) eqn:E.
  - intros H; inversion H; subst x. exists 0%nat. now repeat split.
  - intros H. destruct (IH H) as (idx & H1 & H2 & H3).
    exists (S idx). rewrite H1. repeat split; [exact H2 |].
    intros f; simpl. now rewrite H3.
Qed.




(** C10. In the proof-file variant, on a stored record whose email is null
    or the empty string the email check is skipped: with a proof file,
    whatever the payer email of the request (even a missing one), the
    confirmation succeeds and the record read back is paid and carries
    that payer email; with or without a file the reply is never
    EmailMismatch. *)
Theorem confirmPayment_skips_check_without_stored_email :
  forall rows key rec tx m payer now,
    find_by_id key rows = Some rec ->
    email rec = JNull \/ email rec = JStr "" ->
    (forall proof,
        exists rows' r',
          confirmPayment rows key tx m payer (Some proof) now
          = (rows', Ok key)
          /\ find_by_id key rows' = Some r'
          /\ paid r' = JNum 1 /\ payer_email r' = payer)
    /\ (forall file,
          snd (confirmPayment rows key tx m payer file now)
          <> Err EmailMismatch).
Proof.
  intros rows key rec tx m payer now Hfind Hmail.
  assert (Hd : email_differs (email rec) payer = Some false)
    by (destruct Hmail as [-> | ->]; reflexivity).
  split.
  - intros proof. eexists _, _.
    split; [exact (confirmPayment_found _ _ _ _ _ _ _ rec Hfind Hd) |].
    split; [apply (find_mutate_first key _ rows rec); [reflexivity | exact Hfind] |]. split; reflexivity.
  - intros [proof|]; [|discriminate].
    rewrite (confirmPayment_found rows key tx m payer proof now rec Hfind Hd).
    discriminate.
Qed.

Lemma confirmPayment_skips_check_without_stored_email_witness :
  exists rows' r',
    confirmPayment [row_without_email] "Z9Y8X7W6V5" (JStr "TX-2")
      (JStr "UPI") JUndefined (Some receipt) "2025-01-02T00:00:00.000Z"
    = (rows', Ok "Z9Y8X7W6V5")
    /\ find_by_id "Z9Y8X7W6V5" rows' = Some r'
    /\ paid r' = JNum 1 /\ payer_email r' = JUndefined.
Proof.
  apply (proj1 (confirmPayment_skips_check_without_stored_email
                  [row_without_email] "Z9Y8X7W6V5" row_without_email
                  (JStr "TX-2") (JStr "UPI") JUndefined
                  "2025-01-02T00:00:00.000Z" eq_refl (or_intror eq_refl))
               receipt).
Defined.

(** ** Admin authentication *)

Lemma ADMIN_PASSWORD_nonempty (env : environment) : ADMIN_PASSWORD env <> "".
Proof.
  unfold ADMIN_PASSWORD, js_or.
  destruct (env_ADMIN_PASSWORD env) as [s|]; simpl; [|discriminate].
  destruct (s =? "") eqn:E; simpl; [discriminate |].
  now apply String.eqb_neq.
Qed.

Lemma checkAdminPassword_false env req :
  supplied_secret req <> ADMIN_PASSWORD env ->
  checkAdminPassword env req = false.
Proof. intros H. now apply String.eqb_neq. Qed.

(** C7. The secret of a request is the query parameter when it is given
    and not empty, else the header, else the empty string.  Whenever it is
    not exactly the configured password (the empty string and a spelling
    of the password in another letter case never are), each of the admin
    operations list, export and markPaid answers Unauthorized; no record
    is part of the reply and markPaid leaves the collection as it was. *)
Theorem admin_rejects_wrong_secret :
  forall env req,
    (supplied_secret req <> ADMIN_PASSWORD env ->
     forall q rows key flag now,
       adminRegistrations env req q rows = Err Unauthorized
       /\ adminExport env req rows = Err Unauthorized
       /\ markPaid env req rows key flag now = (rows, Err Unauthorized))
    /\ (supplied_secret req = "" ->
        supplied_secret req <> ADMIN_PASSWORD env)
    /\ (forall s, query_password req = Some s -> s <> "" ->
                  supplied_secret req = s)
    /\ (forall h, query_password req = None \/ query_password req = Some "" ->
                  header_password req = Some h ->
                  supplied_secret req = h)
    /\ (query_password req = None \/ query_password req = Some "" ->
        header_password req = None ->
        supplied_secret req = "").
Proof.
  intros env req. split; [|split; [|split; [|split]]].
  - intros H q rows key flag now.
    unfold adminRegistrations, adminExport, markPaid.
    now rewrite (checkAdminPassword_false env req H).
  - intros -> H. symmetry in H. now apply ADMIN_PASSWORD_nonempty in H.
  - intros s Hq Hs. unfold supplied_secret. rewrite Hq. unfold js_or.
    simpl of_optional. rewrite (truthy_string s Hs).
    now rewrite (truthy_string s Hs).
  - intros h Hq Hh. unfold supplied_secret. rewrite Hh.
    destruct Hq as [-> | ->]; unfold js_or; simpl;
      destruct (h =? "") eqn:E; simpl; try reflexivity;
      now apply String.eqb_eq in E.
  - intros Hq Hh. unfold supplied_secret. rewrite Hh.
    destruct Hq as [-> | ->]; reflexivity.
Qed.

Lemma admin_rejects_wrong_secret_witness :
  equal_up_to_case "vishalrajput2003" (ADMIN_PASSWORD default_env)
  /\ adminRegistrations default_env
       {| query_password := Some "vishalrajput2003";
          header_password := Some "VishalRajput2003" |}
       None rows_confirmed = Err Unauthorized
  /\ adminExport default_env
       {| query_password := Some "vishalrajput2003";
          header_password := Some "VishalRajput2003" |}
       rows_confirmed = Err Unauthorized
  /\ markPaid default_env
       {| query_password := Some "vishalrajput2003";
          header_password := Some "VishalRajput2003" |}
       rows_confirmed "A1B2C3D4E5" (JBool false) "2025-01-03T00:00:00.000Z"
     = (rows_confirmed, Err Unauthorized).
Proof.
  split; [apply toLowerCase_equal_up_to_case; reflexivity |].
  apply (proj1 (admin_rejects_wrong_secret default_env
                  {| query_password := Some "vishalrajput2003";
                     header_password := Some "VishalRajput2003" |})).
  vm_compute. discriminate.
Defined.

(** ** Substring search *)

Lemma startsWith_prefix (s p : string) :
  startsWith s p = true <-> exists post, s = p ++ post.
Proof.
  revert s. induction p as [|d p IH]; intros s; simpl.
  - split; [now exists s | reflexivity].
  - destruct s as [|c s]; simpl.
    + split; [discriminate | intros [post H]; discriminate H].
    + rewrite andb_true_iff, Ascii.eqb_eq, IH. split.
      * intros [-> [post ->]]. now exists post.
      * intros [post H]. inversion H. split; [reflexivity | now exists post].
Qed.

Lemma includes_substring (s sub : string) :
  includes s sub = true <-> exists pre post, s = pre ++ sub ++ post.
Proof.
  induction s as [|c s IH]; simpl.
  - rewrite orb_false_r, startsWith_prefix. split.
    + intros [post H]. now exists "", post.
    + intros (pre & post & H). destruct pre; [now exists post | discriminate H].
  - rewrite orb_true_iff, startsWith_prefix, IH. split.
    + intros [[post H] | (pre & post & H)].
      * now exists "", post.
      * exists (String c pre), post. simpl. now rewrite H.
    + intros (pre & post & H). destruct pre as [|c' pre]; simpl in H.
      * left. now exists post.
      * right. inversion H. now exists pre, post.
Qed.

Lemma toLowerCase_app (a b : string) :
  toLowerCase (a ++ b) = toLowerCase a ++ toLowerCase b.
Proof. induction a as [|c a IH]; simpl; [reflexivity | now rewrite IH]. Qed.

(** A split of the lowered text comes from a split of the text. *)
Lemma toLowerCase_split (a b : string) :
  forall s, toLowerCase s = a ++ b ->
            exists s1 s2, s = s1 ++ s2
                          /\ toLowerCase s1 = a /\ toLowerCase s2 = b.
Proof.
  induction a as [|c a IH]; simpl; intros s H.
  - now exists "", s.
  - destruct s as [|d s]; [discriminate H |]. simpl in H. inversion H.
    destruct (IH s H2) as (s1 & s2 & -> & H3 & H4).
    exists (String d s1), s2. simpl. now rewrite H3.
Qed.


(** The test of the search filter is containment up to letter case. *)
Lemma includes_lowered (s q : string) :
  includes (toLowerCase s) (toLowerCase q) = true
  <-> contains_ignoring_case s q.
Proof.
  rewrite includes_substring. unfold contains_ignoring_case. split.
  - intros (pre & post & H).
    apply toLowerCase_split in H as (s1 & s23 & -> & _ & H).
    apply toLowerCase_split in H as (s2 & s3 & -> & H & _).
    exists s1, s2, s3. split; [reflexivity |].
    now apply toLowerCase_equal_up_to_case.
  - intros (pre & mid & post & -> & H).
    apply toLowerCase_equal_up_to_case in H.
    exists (toLowerCase pre), (toLowerCase post).
    now rewrite !toLowerCase_app, H.
Qed.

Lemma filter_selects {A : Type} (P : A -> Prop) (f : A -> bool) (l : list A) :
  (forall x, f x = true <-> P x) -> selects P l (filter f l).
Proof.
  intros Hf. induction l as [|x l IH]; simpl; [constructor |].
  destruct (f x) eqn:E.
  - apply selects_keep; [now apply Hf | exact IH].
  - apply selects_drop; [|exact IH].
    intros HP. apply Hf in HP. congruence.
Qed.

(** ** Admin listing *)






(** The concatenation is JavaScript's: a null paper_id contributes the text
    null, so the query null selects a record that has no paper id. *)
Example search_text_of_missing_paper_id :
  search_text row_without_email = "Z9Y8X7W6V5Beanull"
  /\ exists result,
       adminRegistrations default_env admin (Some "null") [row_without_email]
       = Ok result
       /\ map row result = [row_without_email].
Proof.
  split; [reflexivity |]. eexists. split; [vm_compute; reflexivity |].
  reflexivity.
Qed.

(* ================================================================== *)
(** * Further properties of the handlers *)

(** ** Registration: what is written, and when *)

(** The four ways a registration ends. *)
Lemma register_cases rows req fresh now :
  (register rows req fresh now = (rows, Err MissingField)
   /\ (truthy (body_category req) = false
       \/ truthy (body_region req) = false
       \/ truthy (body_name req) = false
       \/ truthy (body_email req) = false
       \/ truthy (body_mobile req) = false))
  \/ (register rows req fresh now = (rows, Err Internal))
  \/ (register rows req fresh now = (rows, Err InvalidSelection))
  \/ (exists v,
        FEES_lookup (body_category req) (body_region req) = Normal v
        /\ value_truthy v = true
        /\ (truthy (body_category req) = true
            /\ truthy (body_region req) = true
            /\ truthy (body_name req) = true
            /\ truthy (body_email req) = true
            /\ truthy (body_mobile req) = true)
        /\ register rows req fresh now
           = ((rows ++ [new_record req fresh now (field_of v "currency")
                          (field_of v "amount")])%list,
              Ok {| reply_id := fresh;
                    reply_currency := field_of v "currency";
                    reply_amount := field_of v "amount";
                    reply_file :=
                      match req_file req with
                      | Some f => uploads_url (JStr (filename f))
                      | None => JNull
                      end |})).
Proof.
  unfold register.
  destruct (truthy (body_category req)) eqn:H1; simpl; [|left; auto].
  destruct (truthy (body_region req)) eqn:H2; simpl; [|left; auto].
  destruct (truthy (body_name req)) eqn:H3; simpl; [|left; auto].
  destruct (truthy (body_email req)) eqn:H4; simpl; [|left; auto 6].
  destruct (truthy (body_mobile req)) eqn:H5; simpl; [|left; auto 7].
  right. destruct (FEES_lookup _ _) as [v|]; [|left; reflexivity].
  right. destruct (value_truthy v) eqn:Hv; simpl; [|left; reflexivity].
  right. exists v. repeat split; assumption.
Qed.






Lemma field_of_not_leaf v k :
  (forall f, v <> Obj (Leaf f)) -> field_of v k = JUndefined.
Proof.
  destruct v as [p|[]]; simpl; try reflexivity.
  intros H. now destruct (H f).
Qed.




(** ** The guard of the fee lookup *)

Lemma object_prototype_silent recv k :
  ~ In k object_prototype_names ->
  own_property recv ObjectPrototype k = None.
Proof.
  intros H. cbn [own_property]. unfold method.
  destruct (k =? "constructor") eqn:E1;
    [apply String.eqb_eq in E1; subst; exfalso; apply H; simpl; auto |].
  destruct (k =? "__proto__") eqn:E2;
    [apply String.eqb_eq in E2; subst; exfalso; apply H; simpl; auto |].
  destruct (assoc k object_prototype_methods) eqn:Ha; [|reflexivity].
  exfalso. apply H. right; right.
  clear - Ha. induction object_prototype_methods as [|[k' n] l IH];
    simpl in *; [discriminate |].
  destruct (k =? k') eqn:E; [apply String.eqb_eq in E; auto | auto].
Qed.

Lemma FEES_lookup_unknown c g :
  (assoc c FEES = None /\ ~ In c object_prototype_names)
  \/ (exists entries,
         assoc c FEES = Some entries /\ assoc g entries = None
         /\ ~ In g object_prototype_names) ->
  FEES_lookup (JStr c) (JStr g) = Normal (Prim JUndefined).
Proof.
  unfold FEES_lookup. cbn [ToString].
  intros [[Hc Hn] | (entries & Hc & Hg & Hn)].
  - unfold Get. cbn [chain lookup].
    rewrite (object_prototype_silent Fees c Hn).
    cbn [own_property]. now rewrite Hc.
  - assert (H : Get Fees c = Normal (Obj (Row entries)))
      by (unfold Get; cbn [chain lookup own_property]; now rewrite Hc).
    rewrite H. unfold Get. cbn [chain lookup].
    rewrite (object_prototype_silent (Row entries) g Hn).
    cbn [own_property]. now rewrite Hg.
Qed.

(** X2. A complete request whose category is neither a category of the
    table nor a name Object.prototype answers to, or whose category is in
    the table but whose region is neither one of its regions nor such a
    name, is refused with InvalidSelection and nothing is written. *)
Theorem register_refuses_unknown_keys :
  forall rows req fresh now c g,
    body_category req = JStr c -> body_region req = JStr g ->
    c <> "" -> g <> "" ->
    truthy (body_name req) = true ->
    truthy (body_email req) = true ->
    truthy (body_mobile req) = true ->
    (assoc c FEES = None /\ ~ In c object_prototype_names)
    \/ (exists entries,
           assoc c FEES = Some entries /\ assoc g entries = None
           /\ ~ In g object_prototype_names) ->
    register rows req fresh now = (rows, Err InvalidSelection).
Proof.
  intros rows req fresh now c g Hc Hg Hc0 Hg0 Hn He Hm Hunknown.
  unfold register.
  rewrite Hc, Hg, Hn, He, Hm, (truthy_string c Hc0), (truthy_string g Hg0).
  simpl orb. cbv iota.
  now rewrite (FEES_lookup_unknown c g Hunknown).
Qed.

Lemma register_refuses_unknown_keys_witness :
  register rows_registered
    {| body_category := JStr "Academia"; body_region := JStr "EUROPE";
       body_paperId := JUndefined; body_name := JStr "Cy";
       body_organization := JUndefined; body_email := JStr "cy@example.org";
       body_mobile := JStr "5550103"; req_file := None |}
    "F6G7H8J9K1" "2025-01-04T00:00:00.000Z"
  = (rows_registered, Err InvalidSelection).
Proof.
  apply (register_refuses_unknown_keys rows_registered
           {| body_category := JStr "Academia"; body_region := JStr "EUROPE";
              body_paperId := JUndefined; body_name := JStr "Cy";
              body_organization := JUndefined;
              body_email := JStr "cy@example.org";
              body_mobile := JStr "5550103"; req_file := None |}
           "F6G7H8J9K1"
           "2025-01-04T00:00:00.000Z" "Academia" "EUROPE" eq_refl eq_refl);
    try discriminate; try reflexivity.
  right. eexists. split; [reflexivity |]. split; [reflexivity |].
  simpl. intros H.
  repeat (destruct H as [H | H]; [discriminate H |]). exact H.
Defined.

(** ** Reading back what was registered *)

Lemma find_by_id_app key rows more :
  find_by_id key (rows ++ more)
  = match find_by_id key rows with
    | Some r => Some r
    | None => find_by_id key more
    end.
Proof.
  unfold find_by_id. induction rows as [|x rest IH]; simpl; [reflexivity |].
  now destruct (id x =? key).
Qed.

(** X3. After a successful registration a lookup by another id answers as
    before; a lookup by the new id finds the new record when the id was
    not in use, and still finds the older record when it was: the handler
    does not check that the generated id is new. *)
Theorem register_then_find :
  forall rows req fresh now rows' body,
    register rows req fresh now = (rows', Ok body) ->
    (forall key, key <> fresh -> find_by_id key rows' = find_by_id key rows)
    /\ (find_by_id fresh rows = None ->
        exists r, find_by_id fresh rows' = Some r
                  /\ rows' = (rows ++ [r])%list
                  /\ created_at r = now /\ email r = body_email req)
    /\ (forall old, find_by_id fresh rows = Some old ->
                    find_by_id fresh rows' = Some old).
Proof.
  intros rows req fresh now rows' body H.
  apply register_ok in H as (cur & amt & -> & _).
  split; [|split].
  - intros key Hk. rewrite find_by_id_app.
    destruct (find_by_id key rows); [reflexivity |].
    unfold find_by_id; simpl.
    destruct (fresh =? key) eqn:E; [|reflexivity].
    apply String.eqb_eq in E. congruence.
  - intros Hnone. eexists. rewrite find_by_id_app, Hnone.
    unfold find_by_id; simpl. rewrite String.eqb_refl.
    repeat split.
  - intros old Hold. now rewrite find_by_id_app, Hold.
Qed.

Lemma register_then_find_witness :
  exists r,
    find_by_id "A1B2C3D4E5" rows_registered = Some r
    /\ email r = JStr "ada@example.org".
Proof.
  destruct (proj1 (proj2 (register_then_find [] ada_request "A1B2C3D4E5"
                            "2025-01-01T00:00:00.000Z" rows_registered _
                            eq_refl)) eq_refl)
    as (r & H1 & _ & _ & H2).
  exists r. split; assumption.
Defined.

(** ** What every operation keeps *)

Lemma set_payment_same_core now tx m payer proof r :
  same_core r (set_payment now tx m payer proof r).
Proof. unfold same_core; simpl; repeat split. Qed.

Lemma set_paid_same_core flag now r : same_core r (set_paid flag now r).
Proof. unfold same_core; simpl; repeat split. Qed.

Lemma same_core_refl r : same_core r r.
Proof. unfold same_core; repeat split. Qed.

Lemma same_core_trans a b c : same_core a b -> same_core b c -> same_core a c.
Proof.
  unfold same_core. intros H1 H2.
  repeat match goal with H : _ /\ _ |- _ => destruct H end.
  repeat split; congruence.
Qed.

Lemma Forall2_same_core_refl rows : Forall2 same_core rows rows.
Proof. induction rows; constructor; auto using same_core_refl. Qed.

Lemma mutate_first_same_core key f rows :
  (forall r, same_core r (f r)) ->
  Forall2 same_core rows (mutate_first key f rows).
Proof.
  intros Hf. induction rows as [|x rest IH]; simpl; [constructor |].
  destruct (id x =? key); constructor;
    auto using same_core_refl, Forall2_same_core_refl.
Qed.

Lemma step_keeps now rows rows' :
  step now rows rows' ->
  exists kept added,
    rows' = (kept ++ added)%list /\ Forall2 same_core rows kept
    /\ (List.length added <= 1)%nat.
Proof.
  intros [rows0 req fresh | rows0 key tx m payer file
          | env req rows0 key flag].
  - destruct (register_cases rows0 req fresh now)
      as [[H _] | [H | [H | (v & _ & _ & _ & H)]]]; rewrite H; simpl.
    1-3: exists rows0, []; rewrite app_nil_r;
      repeat split; auto using Forall2_same_core_refl.
    eexists rows0, [_]. repeat split; auto using Forall2_same_core_refl.
  - exists (fst (confirmPayment rows0 key tx m payer file now)), [].
    rewrite app_nil_r. split; [reflexivity |]. split; [|simpl; lia].
    unfold confirmPayment.
    destruct file as [proof|]; [|apply Forall2_same_core_refl].
    destruct (find_by_id key rows0) as [rec|];
      [|apply Forall2_same_core_refl].
    destruct (email_differs (email rec) payer) as [[|]|];
      try apply Forall2_same_core_refl.
    simpl. apply mutate_first_same_core.
    intros r. apply set_payment_same_core.
  - exists (fst (markPaid env req rows0 key flag now)), [].
    rewrite app_nil_r. split; [reflexivity |]. split; [|simpl; lia].
    unfold markPaid.
    destruct (negb (checkAdminPassword env req));
      [apply Forall2_same_core_refl |].
    destruct (find_by_id key rows0) as [rec|];
      [|apply Forall2_same_core_refl].
    simpl. apply mutate_first_same_core.
    intros r. apply set_paid_same_core.
Qed.

Lemma Forall2_same_core_trans a b c :
  Forall2 same_core a b -> Forall2 same_core b c -> Forall2 same_core a c.
Proof.
  intros H. revert c. induction H as [|x y a b Hxy _ IH]; intros c Hc;
    inversion Hc; subst; constructor; eauto using same_core_trans.
Qed.

(** X4. Whatever operations run, in whatever number, no record is removed
    or moved and nothing but the payment state of a record changes: the
    collection afterwards starts with as many records as there were
    before, each with the id, creation time, category, region, fee, paper
    and contact fields it had, and any further records come after them. *)
Theorem operations_keep_records :
  forall rows rows',
    steps rows rows' ->
    exists kept added,
      rows' = (kept ++ added)%list /\ Forall2 same_core rows kept.
Proof.
  intros rows rows' H.
  induction H as [rows | now rows rows' rows'' _ IH Hstep].
  - exists rows, []. rewrite app_nil_r.
    split; [reflexivity | apply Forall2_same_core_refl].
  - destruct IH as (kept & added & -> & Hkept).
    destruct (step_keeps _ _ _ Hstep) as (kept' & added' & -> & Hk' & _).
    apply Forall2_app_inv_l in Hk' as (k1 & k2 & Hk1 & _ & ->).
    exists k1, (k2 ++ added')%list. rewrite app_assoc.
    split; [reflexivity | eapply Forall2_same_core_trans; eauto].
Qed.

Lemma operations_keep_records_witness :
  exists kept added,
    rows_overridden = (kept ++ added)%list
    /\ Forall2 same_core rows_registered kept.
Proof.
  apply (operations_keep_records rows_registered rows_overridden).
  eapply steps_more; [| apply step_markPaid].
  eapply steps_more; [| apply step_confirmPayment].
  apply steps_none.
Defined.

(** ** Invariants of the collections the operations produce *)









(** ** Payment confirmation: outcomes *)

(** X7. The proof-file confirmation checks, in this order, the file, the
    id and the email: without a file the reply is MissingField whatever
    the id; with a file and an unknown id it is NotFound; every failure
    leaves the collection as it was; a success rewrites the first record
    of that id, and only it, into a paid record with the submitted
    transaction id, method, payer email and proof file names. *)
Theorem confirmPayment_outcomes :
  forall rows key tx m payer file now,
    (file = None <->
     snd (confirmPayment rows key tx m payer file now) = Err MissingField)
    /\ (file <> None /\ find_by_id key rows = None <->
        snd (confirmPayment rows key tx m payer file now) = Err NotFound)
    /\ (forall e,
          snd (confirmPayment rows key tx m payer file now) = Err e ->
          fst (confirmPayment rows key tx m payer file now) = rows)
    /\ (forall k,
          snd (confirmPayment rows key tx m payer file now) = Ok k ->
          exists proof rec r',
            file = Some proof /\ k = key
            /\ replaces_first key rec r' rows
                 (fst (confirmPayment rows key tx m payer file now))
            /\ same_core rec r'
            /\ paid r' = JNum 1 /\ paid_at r' = JStr now
            /\ transaction_id r' = tx /\ payment_method r' = m
            /\ payer_email r' = payer
            /\ payment_proof_filename r' = JStr (filename proof)
            /\ payment_proof_original r' = JStr (originalname proof)).
Proof.
  intros rows key tx m payer file now. unfold confirmPayment.
  destruct file as [proof|]; simpl;
    [|repeat split; intros;
      repeat match goal with H : _ /\ _ |- _ => destruct H end;
      try discriminate; try congruence; reflexivity].
  destruct (find_by_id key rows) as [rec|] eqn:Hfind; simpl;
    [|repeat split; intros;
      repeat match goal with H : _ /\ _ |- _ => destruct H end;
      try discriminate; try congruence; reflexivity].
  destruct (email_differs (email rec) payer) as [[|]|]; simpl;
    try (repeat split; intros;
         repeat match goal with H : _ /\ _ |- _ => destruct H end;
         try discriminate; try congruence; reflexivity).
  split; [split; discriminate |].
  split; [split; [intros [_ H]; discriminate H | discriminate] |].
  split; [discriminate |].
  intros k Hk; inversion Hk; subst k.
  exists proof, rec, (set_payment now tx m payer proof rec).
  split; [reflexivity |]. split; [reflexivity |].
  split; [now apply mutate_first_replaces |].
  split; [apply set_payment_same_core |]. repeat split.
Qed.

Lemma confirmPayment_outcomes_witness :
  fst (confirmPayment rows_registered "A1B2C3D4E5" (JStr "TX-9") (JStr "UPI")
         (JStr "mallory@example.org") (Some receipt)
         "2025-01-02T00:00:00.000Z") = rows_registered.
Proof.
  apply (proj1 (proj2 (proj2 (confirmPayment_outcomes rows_registered
           "A1B2C3D4E5" (JStr "TX-9") (JStr "UPI")
           (JStr "mallory@example.org") (Some receipt)
           "2025-01-02T00:00:00.000Z"))) EmailMismatch).
  reflexivity.
Defined.

(** ** How operations compose *)

Lemma mutate_first_twice key f g rows :
  (forall r, id (f r) = id r) ->
  mutate_first key g (mutate_first key f rows)
  = mutate_first key (fun r => g (f r)) rows.
Proof.
  intros Hf. induction rows as [|x rest IH]; simpl; [reflexivity |].
  destruct (id x =? key) eqn:E; simpl.
  - now rewrite Hf, E.
  - now rewrite E, IH.
Qed.

Lemma mutate_first_ext key f g rows :
  (forall r, f r = g r) -> mutate_first key f rows = mutate_first key g rows.
Proof.
  intros H. induction rows as [|x rest IH]; simpl; [reflexivity |].
  now rewrite H, IH.
Qed.

Lemma find_mutate_other key key' f rows :
  key <> key' -> (forall r, id (f r) = id r) ->
  find_by_id key (mutate_first key' f rows) = find_by_id key rows.
Proof.
  intros Hne Hf. unfold find_by_id.
  induction rows as [|x rest IH]; simpl; [reflexivity |].
  destruct (id x =? key') eqn:E'; simpl.
  - rewrite Hf. destruct (id x =? key) eqn:E; [|reflexivity].
    apply String.eqb_eq in E, E'. congruence.
  - now rewrite IH.
Qed.

Lemma mutate_first_commute key key' f g rows :
  key <> key' ->
  (forall r, id (f r) = id r) -> (forall r, id (g r) = id r) ->
  mutate_first key f (mutate_first key' g rows)
  = mutate_first key' g (mutate_first key f rows).
Proof.
  intros Hne Hf Hg. induction rows as [|x rest IH]; simpl; [reflexivity |].
  destruct (id x =? key) eqn:E, (id x =? key') eqn:E'; simpl.
  - apply String.eqb_eq in E, E'. congruence.
  - now rewrite E, Hf, E'.
  - now rewrite E', Hg, E.
  - now rewrite E, E', IH.
Qed.

(** X8. Confirming a payment again overwrites the earlier confirmation:
    after a successful confirmation, a second one on the same id is
    answered as it would have been without the first, and when it succeeds
    the collection is the one the second confirmation alone would have
    produced. *)
Theorem confirmPayment_last_wins :
  forall rows key tx1 m1 payer1 file1 now1 rows1 k,
    confirmPayment rows key tx1 m1 payer1 file1 now1 = (rows1, Ok k) ->
    forall tx2 m2 payer2 file2 now2,
      snd (confirmPayment rows1 key tx2 m2 payer2 file2 now2)
      = snd (confirmPayment rows key tx2 m2 payer2 file2 now2)
      /\ (forall k2,
            snd (confirmPayment rows1 key tx2 m2 payer2 file2 now2) = Ok k2 ->
            fst (confirmPayment rows1 key tx2 m2 payer2 file2 now2)
            = fst (confirmPayment rows key tx2 m2 payer2 file2 now2)).
Proof.
  intros rows key tx1 m1 payer1 file1 now1 rows1 k H tx2 m2 payer2 file2 now2.
  apply confirmPayment_ok in H as (proof1 & rec & _ & Hfind & _ & -> & _).
  unfold confirmPayment.
  destruct file2 as [proof2|]; [|split; [reflexivity | discriminate]].
  rewrite (find_mutate_first key _ rows rec
             (set_payment_id now1 tx1 m1 payer1 proof1) Hfind), Hfind.
  change (email (set_payment now1 tx1 m1 payer1 proof1 rec)) with (email rec).
  destruct (email_differs (email rec) payer2) as [[|]|]; simpl;
    try (split; [reflexivity | discriminate]).
  split; [reflexivity |]. intros k2 _.
  rewrite mutate_first_twice by reflexivity.
  apply mutate_first_ext. reflexivity.
Qed.

Lemma confirmPayment_last_wins_witness :
  fst (confirmPayment rows_confirmed "A1B2C3D4E5" (JStr "TX-3") (JStr "card")
         (JStr "ada@example.org") (Some receipt) "2025-01-05T00:00:00.000Z")
  = fst (confirmPayment rows_registered "A1B2C3D4E5" (JStr "TX-3")
           (JStr "card") (JStr "ada@example.org") (Some receipt)
           "2025-01-05T00:00:00.000Z").
Proof.
  apply (proj2 (confirmPayment_last_wins rows_registered "A1B2C3D4E5"
                  (JStr "TX-1") (JStr "UPI") (JStr "Ada@Example.org")
                  (Some receipt) "2025-01-02T00:00:00.000Z" rows_confirmed
                  "A1B2C3D4E5" eq_refl (JStr "TX-3") (JStr "card")
                  (JStr "ada@example.org") (Some receipt)
                  "2025-01-05T00:00:00.000Z") "A1B2C3D4E5").
  reflexivity.
Defined.

(** X9. Operations on different registrations do not interfere: for two
    different ids, confirming a payment on the one and setting the paid
    flag on the other give the same replies and the same collection in
    either order. *)
Theorem confirmPayment_markPaid_commute :
  forall env req rows key1 key2 tx m payer file now1 flag now2,
    key1 <> key2 ->
    snd (confirmPayment (fst (markPaid env req rows key2 flag now2))
           key1 tx m payer file now1)
    = snd (confirmPayment rows key1 tx m payer file now1)
    /\ snd (markPaid env req
              (fst (confirmPayment rows key1 tx m payer file now1))
              key2 flag now2)
       = snd (markPaid env req rows key2 flag now2)
    /\ fst (confirmPayment (fst (markPaid env req rows key2 flag now2))
              key1 tx m payer file now1)
       = fst (markPaid env req
                (fst (confirmPayment rows key1 tx m payer file now1))
                key2 flag now2).
Proof.
  intros env req rows key1 key2 tx m payer file now1 flag now2 Hne.
  assert (Hne' : key2 <> key1) by congruence.
  unfold markPaid, confirmPayment.
  destruct (negb (checkAdminPassword env req)); simpl;
    [destruct file; [|now repeat split];
     destruct (find_by_id key1 rows) as [rec|]; [|now repeat split];
     destruct (email_differs (email rec) payer) as [[|]|]; now repeat split |].
  destruct file as [proof|]; simpl.
  2: { destruct (find_by_id key2 rows); now repeat split. }
  destruct (find_by_id key2 rows) as [rec2|] eqn:H2; simpl.
  - rewrite (find_mutate_other key1 key2 _ rows Hne (set_paid_id flag now2)).
    destruct (find_by_id key1 rows) as [rec1|] eqn:H1; simpl;
      [|rewrite H2; now repeat split].
    destruct (email_differs (email rec1) payer) as [[|]|]; simpl;
      try (rewrite H2; now repeat split).
    rewrite (find_mutate_other key2 key1 _ rows Hne'
               (set_payment_id now1 tx m payer proof)), H2. simpl.
    repeat split.
    apply mutate_first_commute; auto.
  - destruct (find_by_id key1 rows) as [rec1|] eqn:H1; simpl;
      [|rewrite H2; now repeat split].
    destruct (email_differs (email rec1) payer) as [[|]|]; simpl;
      try (rewrite H2; now repeat split).
    rewrite (find_mutate_other key2 key1 _ rows Hne'
               (set_payment_id now1 tx m payer proof)), H2.
    now repeat split.
Qed.

Lemma confirmPayment_markPaid_commute_witness :
  fst (confirmPayment
         (fst (markPaid default_env admin
                 (rows_registered ++ [row_without_email]) "Z9Y8X7W6V5"
                 (JBool true) "2025-01-03T00:00:00.000Z"))
         "A1B2C3D4E5" (JStr "TX-1") (JStr "UPI") (JStr "ada@example.org")
         (Some receipt) "2025-01-02T00:00:00.000Z")
  = fst (markPaid default_env admin
           (fst (confirmPayment (rows_registered ++ [row_without_email])
                   "A1B2C3D4E5" (JStr "TX-1") (JStr "UPI")
                   (JStr "ada@example.org") (Some receipt)
                   "2025-01-02T00:00:00.000Z"))
           "Z9Y8X7W6V5" (JBool true) "2025-01-03T00:00:00.000Z").
Proof.
  apply (confirmPayment_markPaid_commute default_env admin
           (rows_registered ++ [row_without_email])%list
           "A1B2C3D4E5" "Z9Y8X7W6V5").
  discriminate.
Defined.

(** ** The password check *)

Lemma supplied_secret_cases req :
  supplied_secret req
  = match query_password req, header_password req with
    | Some q, Some h => if q =? "" then h else q
    | Some q, None => q
    | None, Some h => h
    | None, None => ""
    end.
Proof.
  unfold supplied_secret, js_or.
  destruct (query_password req) as [q|], (header_password req) as [h|];
    cbn [of_optional truthy];
    try destruct (String.eqb_spec q "") as [-> | Hq];
    try destruct (String.eqb_spec h "") as [-> | Hh];
    cbn [negb truthy ToString];
    rewrite ?String.eqb_refl; cbn [negb truthy ToString];
    repeat match goal with
           | H : ?x <> "" |- context [?x =? ""] =>
               rewrite (proj2 (String.eqb_neq x "") H)
           end; cbn [negb ToString]; reflexivity.
Qed.

(** X10. For a password query parameter that is absent, a string or
    repeated, the admin password check passes exactly when the parameter
    is the configured password, or it is repeated and its items joined by
    commas are the configured password, or it is absent or empty and the
    header is the configured password: a non-empty parameter is compared
    alone, so a wrong one is not made good by a right header.  On a
    parameter that is absent or a string this is the check of the
    handlers above. *)
Theorem checkAdminPassword_exact :
  forall env,
    (forall password header,
        checkAdminPassword_query env password header = true
        <-> password = QueryString (ADMIN_PASSWORD env)
            \/ (exists items,
                   password = QueryArray items
                   /\ join "," items = ADMIN_PASSWORD env)
            \/ ((password = QueryAbsent \/ password = QueryString "")
                /\ header = Some (ADMIN_PASSWORD env)))
    /\ (forall req,
          checkAdminPassword env req
          = checkAdminPassword_query env (query_of (query_password req))
              (header_password req)).
Proof.
  intros env. split.
  - intros password header.
    pose proof (ADMIN_PASSWORD_nonempty env) as Hpw.
    destruct password as [|q|items].
    + change (checkAdminPassword_query env QueryAbsent header)
        with (checkAdminPassword env
                {| query_password := None; header_password := header |}).
      unfold checkAdminPassword. rewrite String.eqb_eq, supplied_secret_cases.
      simpl. destruct header as [h|]; split;
        [intros <-; right; right; auto
        |intros [H | [(items & H & _) | [_ H]]]; inversion H; reflexivity
        |intros H; exfalso; apply Hpw; congruence
        |intros [H | [(items & H & _) | [_ H]]]; inversion H].
    + change (checkAdminPassword_query env (QueryString q) header)
        with (checkAdminPassword env
                {| query_password := Some q; header_password := header |}).
      unfold checkAdminPassword. rewrite String.eqb_eq, supplied_secret_cases.
      simpl. destruct header as [h|];
        try destruct (String.eqb_spec q "") as [-> | Hq];
        (split;
         [intros H; try (exfalso; apply Hpw; congruence); subst; auto
         |intros [H | [(items & H & _) | [[H | H] H']]];
          inversion H; try inversion H'; subst; congruence]).
    + unfold checkAdminPassword_query. rewrite String.eqb_eq. split.
      * intros H. right; left. now exists items.
      * intros [H | [(items' & H & H') | [[H | H] _]]];
          inversion H; subst; assumption.
  - intros req. destruct req as [[q|] h]; reflexivity.
Qed.

Lemma checkAdminPassword_exact_witness :
  checkAdminPassword_query default_env (QueryString "guess")
    (Some "VishalRajput2003") = false
  /\ checkAdminPassword_query default_env (QueryString "")
       (Some "VishalRajput2003") = true
  /\ checkAdminPassword_query {| env_ADMIN_PASSWORD := Some "a,b" |}
       (QueryArray ["a"; "b"]) None = true.
Proof.
  split; [|split].
  - apply not_true_is_false. intros H.
    apply (proj1 (proj1 (checkAdminPassword_exact default_env) _ _)) in H.
    destruct H as [H | [(items & H & _) | [[H | H] _]]]; discriminate H.
  - apply (proj2 (proj1 (checkAdminPassword_exact default_env)
                    (QueryString "") (Some "VishalRajput2003"))).
    right; right. split; [right |]; reflexivity.
  - apply (proj2 (proj1 (checkAdminPassword_exact
                           {| env_ADMIN_PASSWORD := Some "a,b" |})
                    (QueryArray ["a"; "b"]) None)).
    right; left. exists ["a"; "b"]. split; reflexivity.
Defined.

(** ** The JSON route set *)

Lemma ServerJs_register_ok rows req fresh now rows' body :
  ServerJs.register rows req fresh now = (rows', Ok body) ->
  exists cur amt,
    rows' = (rows ++ [ServerJs.new_record req fresh now cur amt])%list
    /\ body = {| reply_id := fresh; reply_currency := cur;
                 reply_amount := amt;
                 reply_file :=
                   match req_file req with
                   | Some f => uploads_url (JStr (filename f))
                   | None => JNull
                   end |}.
Proof.
  unfold ServerJs.register.
  destruct (_ || _); [discriminate |].
  destruct (FEES_lookup _ _) as [v|]; [|discriminate].
  destruct (negb (value_truthy v)); [discriminate |].
  intros H; inversion H; subst. now eexists _, _.
Qed.

(** X11. In the JSON route set, after a successful registration under an
    id that was not in use, reading the registration back returns the new
    record, unpaid and with the fee of the reply, and the payment link of
    that id quotes the same amount and currency; for an id that no record
    has, both routes answer NotFound. *)
Theorem ServerJs_register_then_read :
  forall rows req fresh now rows' body,
    ServerJs.register rows req fresh now = (rows', Ok body) ->
    find_by_id fresh rows = None ->
    (exists r,
        ServerJs.getRegistration rows' fresh = Ok r
        /\ id r = fresh /\ created_at r = now
        /\ currency r = reply_currency body
        /\ amount r = reply_amount body
        /\ paid r = JNum 0 /\ paid_at r = JNull)
    /\ ServerJs.createPayment rows' fresh
       = Ok {| ServerJs.link_url := "/mock-pay/" ++ fresh;
               ServerJs.link_amount := reply_amount body;
               ServerJs.link_currency := reply_currency body |}
    /\ (forall key,
          find_by_id key rows' = None ->
          ServerJs.getRegistration rows' key = Err NotFound
          /\ ServerJs.createPayment rows' key = Err NotFound).
Proof.
  intros rows req fresh now rows' body H Hnew.
  apply ServerJs_register_ok in H as (cur & amt & -> & ->).
  assert (Hfind : find_by_id fresh
                    (rows ++ [ServerJs.new_record req fresh now cur amt])
                  = Some (ServerJs.new_record req fresh now cur amt)).
  { rewrite find_by_id_app, Hnew. unfold find_by_id; simpl.
    now rewrite String.eqb_refl. }
  unfold ServerJs.getRegistration, ServerJs.createPayment.
  rewrite Hfind. split; [|split].
  - eexists; split; [reflexivity |]. repeat split.
  - reflexivity.
  - intros key Hkey. now rewrite Hkey.
Qed.

Lemma ServerJs_register_then_read_witness :
  ServerJs.createPayment
    (fst (ServerJs.register [] ada_request "A1B2C3D4E5"
            "2025-01-01T00:00:00.000Z")) "A1B2C3D4E5"
  = Ok {| ServerJs.link_url := "/mock-pay/A1B2C3D4E5";
          ServerJs.link_amount := JNum 150;
          ServerJs.link_currency := JStr "USD" |}.
Proof.
  apply (proj1 (proj2 (ServerJs_register_then_read [] ada_request
           "A1B2C3D4E5" "2025-01-01T00:00:00.000Z"
           (fst (ServerJs.register [] ada_request "A1B2C3D4E5"
                   "2025-01-01T00:00:00.000Z"))
           {| reply_id := "A1B2C3D4E5"; reply_currency := JStr "USD";
              reply_amount := JNum 150; reply_file := JNull |}
           eq_refl eq_refl))).
Defined.

(** X12. The JSON confirmation first requires its three body fields: when
    one of them is missing or empty the reply is MissingField, whatever
    the id.  Every failure leaves the collection as it was.  With the
    three fields present and a record of that id whose stored email is
    not a string (null, say), the request ends in a server error: unlike
    the proof-file variant, this one cannot confirm such a record.  A
    success rewrites the first record of the id into a paid record and
    leaves its proof-file fields alone. *)
Theorem ServerJs_confirmPayment_outcomes :
  forall rows key tx m payer now,
    (truthy tx = false \/ truthy m = false \/ truthy payer = false <->
     snd (ServerJs.confirmPayment rows key tx m payer now) = Err MissingField)
    /\ (forall e,
          snd (ServerJs.confirmPayment rows key tx m payer now) = Err e ->
          fst (ServerJs.confirmPayment rows key tx m payer now) = rows)
    /\ (forall rec,
          truthy tx = true -> truthy m = true -> truthy payer = true ->
          find_by_id key rows = Some rec ->
          (forall s, email rec <> JStr s) ->
          ServerJs.confirmPayment rows key tx m payer now
          = (rows, Err Internal))
    /\ (forall body,
          snd (ServerJs.confirmPayment rows key tx m payer now) = Ok body ->
          exists rec r',
            replaces_first key rec r' rows
              (fst (ServerJs.confirmPayment rows key tx m payer now))
            /\ same_core rec r'
            /\ paid r' = JNum 1 /\ paid_at r' = JStr now
            /\ transaction_id r' = tx /\ payment_method r' = m
            /\ payer_email r' = payer
            /\ payment_proof_filename r' = payment_proof_filename rec
            /\ payment_proof_original r' = payment_proof_original rec
            /\ ServerJs.reply_paid_at body = JStr now).
Proof.
  intros rows key tx m payer now. unfold ServerJs.confirmPayment.
  destruct (truthy tx) eqn:Htx; simpl;
    [|repeat split; intros; try discriminate; auto].
  destruct (truthy m) eqn:Hm; simpl;
    [|repeat split; intros; try discriminate; auto].
  destruct (truthy payer) eqn:Hp; simpl;
    [|repeat split; intros; try discriminate; auto].
  destruct (find_by_id key rows) as [rec|] eqn:Hfind.
  - destruct (findIndex_found key rows rec Hfind) as (idx & Hi & Hn & Hu).
    rewrite Hi, Hn.
    destruct (call_toLowerCase (email rec)) as [a|] eqn:Ha.
    + destruct (call_toLowerCase payer) as [b|]; simpl.
      * destruct (a =? b); simpl.
        -- split; [split; [intros [H | [H | H]]; discriminate H
                          | discriminate] |].
           split; [discriminate |]. split.
           ++ intros rec' _ _ _ Hrec' Hno. inversion Hrec'; subst rec'.
              destruct (email rec); try discriminate Ha.
              now destruct (Hno s).
           ++ intros body Hb. inversion Hb; subst body.
              exists rec, (ServerJs.set_payment now tx m payer rec).
              rewrite Hu.
              split; [now apply mutate_first_replaces |].
              split; [unfold same_core; simpl; repeat split |].
              repeat split.
        -- split; [split; [intros [H | [H | H]]; discriminate H
                          | discriminate] |].
           split; [reflexivity |]. split; [|discriminate].
           intros rec' _ _ _ Hrec' Hno. inversion Hrec'; subst rec'.
           destruct (email rec); try discriminate Ha.
           now destruct (Hno s).
      * split; [split; [intros [H | [H | H]]; discriminate H
                       | discriminate] |].
        split; [reflexivity |]. split; [reflexivity | discriminate].
    + split; [split; [intros [H | [H | H]]; discriminate H | discriminate] |].
      split; [reflexivity |]. split; [reflexivity | discriminate].
  - assert (Hnone : ServerJs.findIndex key rows = None).
    { clear - Hfind. unfold find_by_id in Hfind.
      induction rows as [|x rest IH]; simpl in *; [reflexivity |].
      destruct (id x =? key); [discriminate |]. now rewrite IH. }
    rewrite Hnone.
    split; [split; [intros [H | [H | H]]; discriminate H | discriminate] |].
    split; [reflexivity |]. split; [discriminate | discriminate].
Qed.

Lemma ServerJs_confirmPayment_outcomes_witness :
  ServerJs.confirmPayment [row_with_null_email] "Z9Y8X7W6V5" (JStr "TX-2")
    (JStr "UPI") (JStr "bea@example.org") "2025-01-02T00:00:00.000Z"
  = ([row_with_null_email], Err Internal).
Proof.
  apply (proj1 (proj2 (proj2 (ServerJs_confirmPayment_outcomes
           [row_with_null_email] "Z9Y8X7W6V5"
           (JStr "TX-2") (JStr "UPI") (JStr "bea@example.org")
           "2025-01-02T00:00:00.000Z"))) row_with_null_email
           eq_refl eq_refl eq_refl eq_refl).
  intros s H. discriminate H.
Defined.

(** X13. The two route sets register alike: on every request they give
    the same reply, and either both write nothing or each appends one
    record; the two records agree on every field except the two proof-file
    names, which the one stores as null and the other leaves out, and the
    admin export line and the derived URLs are the same for both. *)
Theorem register_variants_agree :
  forall rows req fresh now,
    snd (ServerJs.register rows req fresh now)
    = snd (register rows req fresh now)
    /\ ((fst (register rows req fresh now) = rows
         /\ fst (ServerJs.register rows req fresh now) = rows)
        \/ exists r r',
             fst (register rows req fresh now) = (rows ++ [r])%list
             /\ fst (ServerJs.register rows req fresh now)
                = (rows ++ [r'])%list
             /\ same_core r r'
             /\ paid r' = paid r /\ paid_at r' = paid_at r
             /\ transaction_id r' = transaction_id r
             /\ payment_method r' = payment_method r
             /\ payer_email r' = payer_email r
             /\ payment_proof_filename r = JNull
             /\ payment_proof_filename r' = JUndefined
             /\ payment_proof_original r = JNull
             /\ payment_proof_original r' = JUndefined
             /\ csv_line r' = csv_line r
             /\ paper_url (with_urls r') = paper_url (with_urls r)
             /\ payment_proof_url (with_urls r')
                = payment_proof_url (with_urls r)).
Proof.
  intros rows req fresh now. unfold ServerJs.register, register.
  destruct (_ || _); [split; [reflexivity | left; split; reflexivity] |].
  destruct (FEES_lookup _ _) as [v|];
    [|split; [reflexivity | left; split; reflexivity]].
  destruct (negb (value_truthy v));
    [split; [reflexivity | left; split; reflexivity] |].
  split; [reflexivity |]. right. eexists _, _.
  split; [reflexivity |]. split; [reflexivity |].
  split; [unfold same_core; simpl; repeat split |].
  repeat split.
Qed.

(** ** Upload filters *)

Lemma includes_word (s word : string) :
  toLowerCase word = word ->
  (includes (toLowerCase s) word = true <-> contains_ignoring_case s word).
Proof. intros H. rewrite <- H at 1. apply includes_lowered. Qed.

(** X14. The paper filter lets a file through exactly when its mimetype
    contains pdf, in any letter case and at any position; the proof filter
    exactly when it contains image or pdf.  A file without mimetype is
    refused by both, without an exception, and whatever the paper filter
    lets through the proof filter lets through as well. *)
Theorem upload_filters_accept :
  (forall s,
      upload_fileFilter (JStr s) = Some true
      <-> contains_ignoring_case s "pdf")
  /\ (forall s,
        paymentUpload_fileFilter (JStr s) = Some true
        <-> contains_ignoring_case s "image"
            \/ contains_ignoring_case s "pdf")
  /\ upload_fileFilter JUndefined = Some false
  /\ paymentUpload_fileFilter JUndefined = Some false
  /\ (forall v,
        upload_fileFilter v = Some true ->
        paymentUpload_fileFilter v = Some true).
Proof.
  split; [|split; [|split; [|split]]]; try reflexivity.
  - intros s. unfold upload_fileFilter, mimetype_includes.
    rewrite <- (includes_word s "pdf" eq_refl).
    destruct (includes (toLowerCase s) "pdf"); split; congruence.
  - intros s. unfold paymentUpload_fileFilter, mimetype_includes.
    rewrite <- (includes_word s "pdf" eq_refl),
            <- (includes_word s "image" eq_refl).
    destruct (includes (toLowerCase s) "image"),
             (includes (toLowerCase s) "pdf"); split; intros H;
      try reflexivity; auto; try discriminate H.
    destruct H as [H | H]; discriminate H.
  - intros v H. destruct v as [| |b|n|s]; try discriminate H.
    unfold upload_fileFilter, mimetype_includes in H.
    unfold paymentUpload_fileFilter, mimetype_includes.
    destruct (includes (toLowerCase s) "pdf"); [|discriminate H].
    now destruct (includes (toLowerCase s) "image").
Qed.

(** ** The CSV export *)

Lemma append_assoc_s (a b c : string) : (a ++ b) ++ c = a ++ (b ++ c).
Proof. induction a as [|x a IH]; simpl; [reflexivity | now rewrite IH]. Qed.

(** The reader undoes the quoting of a cell, whatever the cell holds. *)
Lemma read_cell_quoted (s rest : string) :
  (forall r, rest <> String dquote r) ->
  read_cell (escape_quotes s ++ String dquote rest) = Some (s, rest).
Proof.
  intros Hrest. induction s as [|c s IH]; simpl.
  - destruct rest as [|d rest]; [reflexivity |].
    destruct (Ascii.eqb_spec d dquote) as [-> | _]; [|reflexivity].
    now destruct (Hrest rest).
  - destruct (Ascii.eqb_spec c dquote) as [-> | Hc]; simpl.
    + now rewrite IH.
    + destruct (Ascii.eqb_spec c dquote) as [E | _]; [contradiction |].
      now rewrite IH.
Qed.

Lemma read_line_quoted (cells : list string) :
  cells <> [] ->
  read_line (List.length cells) (join "," (map quoted cells) ++ newline)
  = Some cells.
Proof.
  induction cells as [|c rest IH]; [contradiction |]. intros _.
  destruct rest as [|c2 rest].
  - simpl. unfold quoted. simpl. rewrite append_assoc_s. simpl.
    rewrite read_cell_quoted by (intros r H; discriminate H).
    reflexivity.
  - change (join "," (map quoted (c :: c2 :: rest)))
      with (quoted c ++ "," ++ join "," (map quoted (c2 :: rest))).
    change (List.length (c :: c2 :: rest))
      with (S (List.length (c2 :: rest))).
    unfold quoted at 1. cbn [append read_line].
    rewrite !append_assoc_s. cbn [append].
    rewrite read_cell_quoted by (intros r H; discriminate H).
    cbn [Ascii.eqb Bool.eqb]. cbv iota.
    rewrite IH by discriminate. reflexivity.
Qed.

(** X15. An authorised export writes the header line and then one line per
    record, the most recently inserted record first.  Each record line
    reads back, cell by cell, to the texts of the twenty columns of its
    record, whatever characters the fields hold (commas, line feeds and
    double quotes included); a null or missing field reads back as the
    empty text. *)
Theorem adminExport_lines_read_back :
  forall env req rows,
    checkAdminPassword env req = true ->
    exists header lines,
      adminExport env req rows = Ok (header :: lines)
      /\ header = join "," export_headers ++ newline
      /\ List.length lines = List.length rows
      /\ (forall i r,
            nth_error (rev rows) i = Some r ->
            exists line,
              nth_error lines i = Some line
              /\ read_line (List.length export_headers) line
                 = Some (map (cell_text r) export_headers))
      /\ (forall r h,
            column r h = JNull \/ column r h = JUndefined ->
            cell_text r h = "")
      /\ (forall r h s, column r h = JStr s -> cell_text r h = s).
Proof.
  intros env req rows Hauth. unfold adminExport. rewrite Hauth. simpl negb.
  cbv iota. eexists _, _. split; [reflexivity |]. split; [reflexivity |].
  split; [now rewrite length_map, length_rev |].
  split; [|split].
  - intros i r Hi. exists (csv_line r).
    split; [now apply map_nth_error |].
    unfold csv_line.
    change (map (fun h => quoted (ToString (nullish_or (column r h) (JStr ""))))
                export_headers)
      with (map quoted (map (cell_text r) export_headers)).
    rewrite <- (length_map (cell_text r) export_headers).
    apply read_line_quoted. discriminate.
  - intros r h [H | H]; unfold cell_text; now rewrite H.
  - intros r h s H. unfold cell_text. now rewrite H.
Qed.

Lemma adminExport_lines_read_back_witness :
  exists header lines,
    adminExport default_env admin rows_confirmed = Ok (header :: lines)
    /\ List.length lines = 1%nat.
Proof.
  destruct (adminExport_lines_read_back default_env admin rows_confirmed
              eq_refl) as (header & lines & H1 & _ & H2 & _).
  exists header, lines. split; [exact H1 | exact H2].
Defined.

Lemma upload_filters_accept_witness :
  upload_fileFilter (JStr "Application/PDF") = Some true
  /\ paymentUpload_fileFilter (JStr "Application/PDF") = Some true.
Proof.
  assert (H : upload_fileFilter (JStr "Application/PDF") = Some true)
    by reflexivity.
  split; [exact H |].
  exact (proj2 (proj2 (proj2 (proj2 upload_filters_accept))) _ H).
Defined.

(** ** The admin listing, further *)

Lemma equal_up_to_case_nonempty a b :
  equal_up_to_case a b -> a <> "" -> b <> "".
Proof. destruct a, b; simpl; intros H Ha; [contradiction | | | discriminate];
         now destruct H. Qed.

(** X16. The listing does not depend on the letter case of the query: two
    queries that are equal up to letter case give the same listing.  And
    a listing never invents anything: every entry is a record of the
    collection, and there are at most as many entries as records. *)
Theorem adminRegistrations_query_case :
  forall env req rows,
    (forall q1 q2,
        equal_up_to_case q1 q2 ->
        adminRegistrations env req (Some q1) rows
        = adminRegistrations env req (Some q2) rows)
    /\ (forall q result,
          adminRegistrations env req q rows = Ok result ->
          (forall l, In l result -> In (row l) rows)
          /\ (List.length result <= List.length rows)%nat).
Proof.
  intros env req rows. split.
  - intros q1 q2 H.
    assert (Hl : toLowerCase q1 = toLowerCase q2)
      by now apply toLowerCase_equal_up_to_case.
    unfold adminRegistrations.
    destruct (negb (checkAdminPassword env req)); [reflexivity |].
    unfold js_or. simpl of_optional.
    destruct (String.eqb_spec q1 "") as [-> | H1].
    + destruct q2; [|contradiction]. reflexivity.
    + pose proof (equal_up_to_case_nonempty q1 q2 H H1) as H2.
      rewrite (truthy_string q1 H1), (truthy_string q2 H2).
      simpl ToString. now rewrite Hl.
  - intros q result. unfold adminRegistrations.
    destruct (negb (checkAdminPassword env req)); [discriminate |].
    intros H; inversion H; subst result; clear H.
    match goal with
    | |- context [if ?b then filter _ _ else _] => destruct b
    end; split.
    + intros l Hl. apply in_map_iff in Hl as (r & <- & Hr).
      apply filter_In in Hr as [Hr _]. simpl. now apply in_rev.
    + rewrite length_map. etransitivity; [apply filter_length_le |].
      now rewrite length_rev.
    + intros l Hl. apply in_map_iff in Hl as (r & <- & Hr).
      simpl. now apply in_rev.
    + now rewrite length_map, length_rev.
Qed.

Lemma adminRegistrations_query_case_witness :
  adminRegistrations default_env admin (Some "ADA") rows_confirmed
  = adminRegistrations default_env admin (Some "ada") rows_confirmed.
Proof.
  apply (proj1 (adminRegistrations_query_case default_env admin
                  rows_confirmed) "ADA" "ada").
  apply toLowerCase_equal_up_to_case. reflexivity.
Defined.

(** ** The admin override, further *)

(** X17. Setting the paid flag again overwrites the earlier setting: after
    a successful markPaid, a second one on the same id gives the reply
    and the collection that the second alone would have given.  The
    override asks for no payment data: after markPaid(id, true) the record
    is paid, with the transaction id, method, payer email and proof file
    names it had before. *)
Theorem markPaid_last_wins :
  forall env req rows key flag1 now1 rows1 r1,
    markPaid env req rows key flag1 now1 = (rows1, Ok r1) ->
    (forall env2 req2 flag2 now2,
        markPaid env2 req2 rows1 key flag2 now2 = (rows1, Err Unauthorized)
        \/ markPaid env2 req2 rows1 key flag2 now2
           = markPaid env2 req2 rows key flag2 now2)
    /\ (exists rec,
          find_by_id key rows = Some rec
          /\ find_by_id key rows1 = Some r1
          /\ same_except_paid rec r1
          /\ (truthy flag1 = true -> paid r1 = JNum 1 /\ paid_at r1 = JStr now1)
          /\ (truthy flag1 = false -> paid r1 = JNum 0 /\ paid_at r1 = JNull)).
Proof.
  intros env req rows key flag1 now1 rows1 r1 H.
  unfold markPaid in H.
  destruct (negb (checkAdminPassword env req)); [discriminate H |].
  destruct (find_by_id key rows) as [rec|] eqn:Hfind; [|discriminate H].
  inversion H; subst rows1 r1; clear H.
  assert (Hfind1 : find_by_id key (mutate_first key (set_paid flag1 now1) rows)
                   = Some (set_paid flag1 now1 rec))
    by now apply find_mutate_first.
  split.
  - intros env2 req2 flag2 now2. unfold markPaid.
    destruct (negb (checkAdminPassword env2 req2)); [now left |].
    right. rewrite Hfind1, Hfind.
    rewrite mutate_first_twice by reflexivity.
    f_equal; try (apply mutate_first_ext; reflexivity).
  - exists rec. split; [reflexivity |]. split; [exact Hfind1 |].
    split; [apply set_paid_same_except_paid |].
    split; intros Hf; simpl; rewrite Hf; split; reflexivity.
Qed.

Lemma markPaid_last_wins_witness :
  exists rec,
    find_by_id "A1B2C3D4E5" rows_registered = Some rec
    /\ same_except_paid rec
         (set_paid (JBool true) "2025-01-03T00:00:00.000Z" rec).
Proof.
  destruct (proj2 (markPaid_last_wins default_env admin rows_registered
              "A1B2C3D4E5" (JBool true) "2025-01-03T00:00:00.000Z"
              _ _ eq_refl)) as (rec & H1 & _ & H2 & _).
  exists rec. split; [exact H1 |].
  vm_compute in H1. inversion H1; subst rec. exact H2.
Defined.

(** ** Timestamps under a forward clock *)

(** X18. When the clock readings of successive operations never decrease,
    every record of the collection was created no later than the latest
    reading, and every record that has a paid_at has one that is not
    before its created_at, whether the payment was confirmed by the
    participant or set by the admin. *)
Theorem run_keeps_time_order :
  forall t rows,
    run t rows ->
    Forall (fun r =>
              (created_at r <=? t) = true
              /\ (paid_at r = JNull
                  \/ exists p, paid_at r = JStr p
                               /\ (created_at r <=? p) = true)) rows.
Proof. intros t rows H. exact (run_timely t rows H). Qed.

Lemma run_keeps_time_order_witness :
  Forall (fun r =>
            (created_at r <=? "2025-01-01T00:00:00.000Z") = true
            /\ (paid_at r = JNull
                \/ exists p, paid_at r = JStr p
                             /\ (created_at r <=? p) = true))
         rows_registered.
Proof.
  apply (run_keeps_time_order "2025-01-01T00:00:00.000Z" rows_registered).
  exact rows_registered_run.
Defined.
